(** * Referral code and points engine: a shallow embedding

    The development follows [services/referral_service.py],
    [routers/referrals.py] and [services/database.py].  The three worksheets
    of the spreadsheet are lists of rows in sheet order, the service object is
    a record holding them, and every operation is a function from the service
    (and its inputs) to a result and the service afterwards.  Values that the
    source obtains from outside (the clock, the random module, the address
    libraries, the chain queries) are explicit inputs. *)

From Stdlib Require Import ZArith List String Ascii Bool Lia.
From Stdlib Require Import DecimalString.
From Stdlib Require Import PrimFloat SpecFloat FloatOps.
From Stdlib Require Import QArith Orders Sorted Permutation Mergesort.
Import ListNotations.

Set Warnings "-inexact-float".

Open Scope string_scope.
Open Scope list_scope.
Open Scope Z_scope.

(** ** Python strings and numbers *)

Module PyStr.

(** [str.lower] and [str.upper] on the ASCII range, which is where addresses
    and codes live. *)
Definition lower_ascii (c : ascii) : ascii :=
  let n := nat_of_ascii c in
  if (Nat.leb 65 n && Nat.leb n 90)%bool then ascii_of_nat (n + 32) else c.

Definition upper_ascii (c : ascii) : ascii :=
  let n := nat_of_ascii c in
  if (Nat.leb 97 n && Nat.leb n 122)%bool then ascii_of_nat (n - 32) else c.

Fixpoint lower (s : string) : string :=
  match s with
  | EmptyString => EmptyString
  | String c t => String (lower_ascii c) (lower t)
  end.

Fixpoint upper (s : string) : string :=
  match s with
  | EmptyString => EmptyString
  | String c t => String (upper_ascii c) (upper t)
  end.

(** Truth value of a string: [not s] holds exactly for the empty string. *)
Definition truthy (s : string) : bool :=
  match s with EmptyString => false | _ => true end.

(** [x in xs] for a list of strings. *)
Definition mem (x : string) (xs : list string) : bool :=
  existsb (String.eqb x) xs.

(** [str(n)] for a non-negative integer. *)
Definition of_int (n : Z) : string :=
  NilZero.string_of_uint (N.to_uint (Z.to_N n)).

Fixpoint zeros (k : nat) : string :=
  match k with O => EmptyString | S k' => String "0" (zeros k') end.

(** [f"{n:0{width}d}"] for a non-negative integer. *)
Definition zfill (width : nat) (n : Z) : string :=
  let s := of_int n in
  String.append (zeros (width - String.length s)) s.

End PyStr.

Module PyFloat.

(** [float(n)]: the nearest binary64 value, ties to even. *)
Definition of_int (n : Z) : float :=
  SF2Prim (binary_normalize prec emax n 0 false).

(** [x < n] for a float [x] and an integer [n] that binary64 holds exactly,
    as all the minimum amounts of the service are. *)
Definition lt_int (x : float) (n : Z) : bool := PrimFloat.ltb x (of_int n).

(** [x > 0]. *)
Definition positive (x : float) : bool := PrimFloat.ltb PrimFloat.zero x.

(** [n / d] for an integer [n] and a float [d]. *)
Definition int_div (n : Z) (d : float) : float := PrimFloat.div (of_int n) d.

End PyFloat.

(** ** The worksheets *)

Module Codes.
Record row := {
  address : string;
  referral_code : string;
  rarity : string;
  rolls_used : Z;
  is_active : string;
  created_at : string
}.
End Codes.

Module Referrals.
Record row := {
  referrer_address : string;
  referral_code : string;
  referred_address : string;
  swap_amount_usdc : float;
  swap_timestamp : string;
  signup_bonus_paid : string;
  referee_bonus_paid : string;
  created_at : string
}.
End Referrals.

Module DailyBalances.
Record row := {
  date : string;
  referred_address : string;
  usdx_balance : float;
  recorded_at : string
}.
End DailyBalances.

(** The service object after [__init__]: [enabled] is [false] when the
    spreadsheet could not be opened, and then no operation touches a sheet. *)
Record ReferralService := {
  enabled : bool;
  codes_sheet : list Codes.row;
  referrals_sheet : list Referrals.row;
  daily_balances_sheet : list DailyBalances.row
}.

Definition append_referral (s : ReferralService) (r : Referrals.row) : ReferralService :=
  {| enabled := enabled s;
     codes_sheet := codes_sheet s;
     referrals_sheet := referrals_sheet s ++ [r];
     daily_balances_sheet := daily_balances_sheet s |}.

Definition append_code (s : ReferralService) (r : Codes.row) : ReferralService :=
  {| enabled := enabled s;
     codes_sheet := codes_sheet s ++ [r];
     referrals_sheet := referrals_sheet s;
     daily_balances_sheet := daily_balances_sheet s |}.

Definition with_codes (s : ReferralService) (cs : list Codes.row) : ReferralService :=
  {| enabled := enabled s;
     codes_sheet := cs;
     referrals_sheet := referrals_sheet s;
     daily_balances_sheet := daily_balances_sheet s |}.

Definition append_balances (s : ReferralService) (rs : list DailyBalances.row) : ReferralService :=
  {| enabled := enabled s;
     codes_sheet := codes_sheet s;
     referrals_sheet := referrals_sheet s;
     daily_balances_sheet := daily_balances_sheet s ++ rs |}.

(** ** Class constants *)

Definition SIGNUP_BONUS : Z := 1000.
Definition REFEREE_BONUS : Z := 1000.
Definition MIN_SWAP_AMOUNT : Z := 100.
Definition BASE_ROLLS : Z := 3.
Definition BONUS_ROLLS : Z := 3.
Definition UNLOCK_THRESHOLD : Z := 3.

Record SpecialCode := {
  sc_min_swap : Z;
  sc_bonus_points : Z;
  sc_description : string
}.

Definition SPECIAL_CODES : list (string * SpecialCode) :=
  [ ("PUNK",   {| sc_min_swap := 5;  sc_bonus_points := 500;
                  sc_description := "Solana Cypherpunk Hackathon code" |});
    ("LAUNCH", {| sc_min_swap := 10; sc_bonus_points := 250;
                  sc_description := "Launch week special" |});
    ("VIP",    {| sc_min_swap := 5;  sc_bonus_points := 1000;
                  sc_description := "VIP early access" |}) ].

(** [SPECIAL_CODES.get(key)]; [key in SPECIAL_CODES] is [special_code key <> None]. *)
Fixpoint lookup {A : Type} (key : string) (d : list (string * A)) : option A :=
  match d with
  | [] => None
  | (k, v) :: rest => if String.eqb key k then Some v else lookup key rest
  end.

Definition special_code (key : string) : option SpecialCode := lookup key SPECIAL_CODES.

(** The marker [get_address_by_code] returns for a special code, and the
    placeholder [record_referral] stores as its referrer. *)
Definition SPECIAL_CODE : string := "SPECIAL_CODE".
Definition PLACEHOLDER_ADDRESS : string := "0x0000000000000000000000000000000000000000".

(** ** Addresses *)

(** The two address libraries the service calls: [Web3.is_address],
    [Web3.to_checksum_address], and whether [Pubkey.from_string] accepts a
    string (it raises otherwise). *)
Class AddressLib := {
  is_address : string -> bool;
  to_checksum_address : string -> string;
  pubkey_from_string : string -> bool
}.

Inductive AddressType := evm | solana.

Record AddressInfo := {
  valid : bool;
  addr_type : option AddressType;
  normalized : string
}.

Definition _validate_address `{AddressLib} (address : string) : AddressInfo :=
  if is_address address then
    {| valid := true; addr_type := Some evm; normalized := to_checksum_address address |}
  else if pubkey_from_string address then
    {| valid := true; addr_type := Some solana; normalized := address |}
  else
    {| valid := false; addr_type := None; normalized := address |}.

(** ** Results *)

Inductive result (E A : Type) : Type :=
| Err (e : E)
| Ok (a : A).
Arguments Err {E A} e.
Arguments Ok {E A} a.

(** ** Code lookup *)

Definition code_matches (code : string) (row : Codes.row) : bool :=
  String.eqb (PyStr.upper (Codes.referral_code row)) (PyStr.upper code).

Definition get_address_by_code (s : ReferralService) (code : string) : option string :=
  if negb (enabled s) then None
  else
    match special_code (PyStr.upper code) with
    | Some _ => Some SPECIAL_CODE
    | None =>
        match find (code_matches code) (codes_sheet s) with
        | Some row => Some (Codes.address row)
        | None => None
        end
    end.

Record CodeBenefits := {
  min_swap : Z;
  bonus_points : Z;
  description : string;
  is_special : bool;
  is_valid : bool
}.

Definition standard_benefits : CodeBenefits :=
  {| min_swap := MIN_SWAP_AMOUNT; bonus_points := 0;
     description := "Standard referral code"; is_special := false; is_valid := true |}.

Definition invalid_benefits : CodeBenefits :=
  {| min_swap := MIN_SWAP_AMOUNT; bonus_points := 0;
     description := "Invalid code"; is_special := false; is_valid := false |}.

Definition get_code_benefits (s : ReferralService) (code : string) : CodeBenefits :=
  let code_upper := PyStr.upper code in
  match special_code code_upper with
  | Some sc =>
      {| min_swap := sc_min_swap sc; bonus_points := sc_bonus_points sc;
         description := sc_description sc; is_special := true; is_valid := true |}
  | None =>
      match get_address_by_code s code with
      | Some referrer =>
          if (PyStr.truthy referrer && negb (String.eqb referrer SPECIAL_CODE))%bool
          then standard_benefits
          else invalid_benefits
      | None => invalid_benefits
      end
  end.

(** ** The referral ledger *)

Definition referred_is (address_lower : string) (row : Referrals.row) : bool :=
  String.eqb (PyStr.lower (Referrals.referred_address row)) address_lower.

Definition check_if_referred (s : ReferralService) (address : string)
  : option (string * string) :=
  if negb (enabled s) then None
  else
    let address := PyStr.lower address in
    match find (referred_is address) (referrals_sheet s) with
    | Some row => Some (Referrals.referrer_address row, Referrals.referral_code row)
    | None => None
    end.

Inductive RecordError :=
| ServiceDisabled
| InvalidReferralCode
| InvalidReferrerAddress
| InvalidReferredAddress
| AddressAlreadyReferred
| SwapBelowMinimum (min_amount : Z).

(** The [error] string of the dictionary [record_referral] returns. *)
Definition record_error_message (e : RecordError) : string :=
  match e with
  | ServiceDisabled => "Service disabled"
  | InvalidReferralCode => "Invalid referral code"
  | InvalidReferrerAddress => "Invalid referrer address"
  | InvalidReferredAddress => "Invalid referred address"
  | AddressAlreadyReferred => "Address already referred"
  | SwapBelowMinimum m =>
      String.append "Swap amount must be at least "
        (String.append (PyStr.of_int m) " USDC")
  end.

Record RecordSuccess := {
  referrer_bonus : Z;
  referee_bonus : Z;
  rs_is_special : bool;
  rs_description : string
}.

Definition record_referral `{AddressLib} (timestamp : string) (s : ReferralService)
    (referrer_address referred_address : string) (swap_amount_usdc : float)
    (referral_code : string)
  : result RecordError RecordSuccess * ReferralService :=
  if negb (enabled s) then (Err ServiceDisabled, s)
  else
    let code_benefits := get_code_benefits s referral_code in
    if negb (is_valid code_benefits) then (Err InvalidReferralCode, s)
    else
      let min_amount := min_swap code_benefits in
      let referrer :=
        if String.eqb referrer_address SPECIAL_CODE then Some PLACEHOLDER_ADDRESS
        else
          let referrer_info := _validate_address referrer_address in
          if valid referrer_info then Some (normalized referrer_info) else None in
      match referrer with
      | None => (Err InvalidReferrerAddress, s)
      | Some referrer_address =>
          let referred_info := _validate_address referred_address in
          if negb (valid referred_info) then (Err InvalidReferredAddress, s)
          else
            let referred_address := normalized referred_info in
            if existsb (referred_is (PyStr.lower referred_address)) (referrals_sheet s)
            then (Err AddressAlreadyReferred, s)
            else if PyFloat.lt_int swap_amount_usdc min_amount
            then (Err (SwapBelowMinimum min_amount), s)
            else
              let referrer_bonus :=
                if negb (String.eqb referrer_address PLACEHOLDER_ADDRESS)
                then SIGNUP_BONUS else 0 in
              let referee_bonus := REFEREE_BONUS + bonus_points code_benefits in
              (Ok {| referrer_bonus := referrer_bonus;
                     referee_bonus := referee_bonus;
                     rs_is_special := is_special code_benefits;
                     rs_description := description code_benefits |},
               append_referral s
                 {| Referrals.referrer_address := referrer_address;
                    Referrals.referral_code := referral_code;
                    Referrals.referred_address := referred_address;
                    Referrals.swap_amount_usdc := swap_amount_usdc;
                    Referrals.swap_timestamp := timestamp;
                    Referrals.signup_bonus_paid := "true";
                    Referrals.referee_bonus_paid := "true";
                    Referrals.created_at := timestamp |})
      end.

(** ** The [/use] endpoint *)

Record UseReferralRequest := {
  req_referral_code : string;
  req_referred_address : string;
  req_swap_amount_usdc : float
}.

(** The failures of [use_referral_code], one per [HTTPException] it raises;
    [RecordFailed] carries the error [record_referral] returned. *)
Inductive UseFailure :=
| InvalidAddress
| UnknownCode
| AlreadyReferred
| SelfReferral
| RecordFailed (e : RecordError).


Definition status_code (f : UseFailure) : Z :=
  match f with
  | UnknownCode => 404
  | _ => 400
  end.

Definition detail (f : UseFailure) : string :=
  match f with
  | InvalidAddress => "Invalid address (must be EVM or Solana)"
  | UnknownCode => "Invalid referral code"
  | AlreadyReferred => "Address has already been referred"
  | SelfReferral => "Cannot refer yourself"
  | RecordFailed e => record_error_message e
  end.

Record UseReferralData := {
  d_referrer_address : string;
  d_referred_address : string;
  d_referrer_bonus : Z;
  d_referee_bonus : Z;
  d_is_special : bool;
  d_description : string;
  d_message : string
}.

Definition use_message (r : RecordSuccess) : string :=
  let message_parts :=
    (if 0 <? referrer_bonus r
     then [String.append (PyStr.of_int (referrer_bonus r)) " points awarded to referrer"]
     else []) ++
    (if 0 <? referee_bonus r
     then [String.append (PyStr.of_int (referee_bonus r)) " points awarded to you!"]
     else []) in
  let message := String.append "Referral recorded! " (String.concat ", " message_parts) in
  if rs_is_special r
  then String.append message (String.append " (" (String.append (rs_description r) ")"))
  else message.

Definition use_referral_code `{AddressLib} (timestamp : string) (s : ReferralService)
    (request : UseReferralRequest)
  : result UseFailure UseReferralData * ReferralService :=
  let addr_info := _validate_address (req_referred_address request) in
  if negb (valid addr_info) then (Err InvalidAddress, s)
  else
    let referred_checksum := normalized addr_info in
    match get_address_by_code s (req_referral_code request) with
    | None => (Err UnknownCode, s)
    | Some referrer_address =>
        if negb (PyStr.truthy referrer_address) then (Err UnknownCode, s)
        else
          match check_if_referred s referred_checksum with
          | Some _ => (Err AlreadyReferred, s)
          | None =>
              if String.eqb (PyStr.lower referrer_address) (PyStr.lower referred_checksum)
              then (Err SelfReferral, s)
              else
                match record_referral timestamp s referrer_address referred_checksum
                        (req_swap_amount_usdc request) (req_referral_code request) with
                | (Err e, s') => (Err (RecordFailed e), s')
                | (Ok r, s') =>
                    (Ok {| d_referrer_address := referrer_address;
                           d_referred_address := referred_checksum;
                           d_referrer_bonus := referrer_bonus r;
                           d_referee_bonus := referee_bonus r;
                           d_is_special := rs_is_special r;
                           d_description := rs_description r;
                           d_message := use_message r |}, s')
                end
          end
    end.

(** ** The random module

    The generator's state is an entropy tape and a cursor; each call of
    [random.random], [random.randint] or [random.choice] consumes one cell.
    Every value the Python functions can return is returned for some cell:
    [random] yields the multiples of 2^-53 in [0, 1), [randint a b] every
    integer of [a, b], [choice] every element of a non-empty sequence. *)

Module Random.

Record state := {
  tape : nat -> Z;
  cursor : nat
}.

Definition next (g : state) : Z * state :=
  (tape g (cursor g), {| tape := tape g; cursor := S (cursor g) |}).

Definition random (g : state) : float * state :=
  let (r, g') := next g in
  (PrimFloat.div (PyFloat.of_int (r mod 2 ^ 53)) (PyFloat.of_int (2 ^ 53)), g').

Definition randint (a b : Z) (g : state) : Z * state :=
  let (r, g') := next g in
  (a + r mod (b - a + 1), g').

(** [seq] is never empty where the service calls [choice]. *)
Definition choice {A : Type} (default : A) (seq : list A) (g : state) : A * state :=
  let (r, g') := next g in
  (nth (Z.to_nat (r mod Z.of_nat (List.length seq))) seq default, g').

End Random.

(** ** Rarity tables *)

Record Tier := {
  weight : float;
  colors : list string;
  words : list string
}.

Definition COMMON_TIER : Tier :=
  {| weight := 0.515%float;
     colors := ["GRAY"; "SILVER"; "ASH"; "SLATE"; "SMOKE"; "STONE"; "IRON"];
     words := ["WAVE"; "WIND"; "FIRE"; "LEAF"; "RIVER"; "SAND"; "SKY"; "DAWN"] |}.

Definition RARITY_TIERS : list (string * Tier) :=
  [ ("MYTHIC",
     {| weight := 0.005%float;
        colors := ["GOLD"; "RAINBOW"; "COSMIC"; "DIVINE"; "CELESTIAL"; "ETERNAL"];
        words := ["SATOSHI"; "WHALE"; "MOON"; "LEGEND"; "TITAN"; "INFINITY"] |});
    ("LEGENDARY",
     {| weight := 0.03%float;
        colors := ["DIAMOND"; "PLATINUM"; "LASER"; "CRYSTAL"; "PRISMATIC"; "RADIANT"];
        words := ["LAMBO"; "ROCKET"; "BULL"; "APE"; "HODL"; "DRAGON"; "PHOENIX"] |});
    ("EPIC",
     {| weight := 0.06%float;
        colors := ["VIOLET"; "AMETHYST"; "ORCHID"; "MAGENTA"; "INDIGO"; "ROYAL"];
        words := ["COMET"; "NOVA"; "METEOR"; "THUNDER"; "LIGHTNING"; "TEMPEST"; "STORM"] |});
    ("RARE",
     {| weight := 0.14%float;
        colors := ["SAPPHIRE"; "AZURE"; "COBALT"; "NAVY"; "OCEAN"; "STEEL"];
        words := ["STAR"; "GALAXY"; "ORBIT"; "STELLAR"; "QUANTUM"; "NEBULA"; "COSMIC"] |});
    ("UNCOMMON",
     {| weight := 0.25%float;
        colors := ["EMERALD"; "JADE"; "FOREST"; "LIME"; "MINT"; "OLIVE"];
        words := ["BLAZE"; "FROST"; "SHADOW"; "CLOUD"; "ECHO"; "FLASH"; "SPARK"] |});
    ("COMMON", COMMON_TIER) ].

Definition LENGTH_WEIGHTS : list (Z * float) :=
  [ (1, 0.05%float); (2, 0.85%float); (3, 0.10%float) ].

(** [SPECIAL_NUMBERS[length]] and [NUMBER_PATTERN_WEIGHTS[length]], in the
    order the dictionaries list their keys. *)
Definition SPECIAL_NUMBERS (length : Z) : list (string * list Z) :=
  if length =? 1 then
    [ ("lucky", [7; 8; 9]); ("regular", [0; 1; 2; 3; 4; 5; 6]) ]
  else if length =? 2 then
    [ ("ultra_rare", [69; 42; 88; 77; 99]);
      ("rare", [11; 22; 33; 44; 55; 66]);
      ("uncommon", [12; 23; 34; 45; 56; 67; 78; 89; 21; 32; 43; 54; 65; 76; 87; 98]);
      ("common", []) ]
  else if length =? 3 then
    [ ("ultra_rare", [420; 666; 888; 777; 999]);
      ("rare", [111; 222; 333; 444; 555]);
      ("uncommon", [123; 234; 345; 456; 567; 678; 789; 321; 432; 543; 654; 765; 876; 987]);
      ("common", []) ]
  else [].

Definition NUMBER_PATTERN_WEIGHTS (length : Z) : list (string * float) :=
  if length =? 1 then
    [ ("lucky", 0.30%float); ("regular", 0.70%float) ]
  else if length =? 2 then
    [ ("ultra_rare", 0.055%float); ("rare", 0.067%float);
      ("uncommon", 0.178%float); ("common", 0.70%float) ]
  else if length =? 3 then
    [ ("ultra_rare", 0.0055%float); ("rare", 0.0055%float);
      ("uncommon", 0.0155%float); ("common", 0.9735%float) ]
  else [].

Definition special_numbers (length : Z) (pattern_type : string) : list Z :=
  match lookup pattern_type (SPECIAL_NUMBERS length) with
  | Some l => l
  | None => []
  end.

(** ** The rarity generator *)

(** The loop the three selectors share: add each weight to [cumulative] and
    return the first key whose running total reaches [rand]. *)
Fixpoint cumulative_pick {K : Type} (rand cumulative : float) (items : list (K * float))
  : option K :=
  match items with
  | [] => None
  | (key, w) :: rest =>
      let cumulative := PrimFloat.add cumulative w in
      if PrimFloat.leb rand cumulative then Some key
      else cumulative_pick rand cumulative rest
  end.

Definition _select_rarity_tier (g : Random.state) : string * Random.state :=
  let (rand, g) := Random.random g in
  match cumulative_pick rand PrimFloat.zero
          (map (fun t => (fst t, weight (snd t))) RARITY_TIERS) with
  | Some tier_name => (tier_name, g)
  | None => ("COMMON", g)
  end.

Definition _select_number_length (g : Random.state) : Z * Random.state :=
  let (rand, g) := Random.random g in
  match cumulative_pick rand PrimFloat.zero LENGTH_WEIGHTS with
  | Some length => (length, g)
  | None => (2, g)
  end.

(** The set the common draw rejects. *)
Definition special_set (length : Z) : list Z :=
  special_numbers length "ultra_rare" ++ special_numbers length "rare"
    ++ special_numbers length "uncommon".

Definition in_set (num : Z) (set : list Z) : bool := existsb (Z.eqb num) set.

(** [while True: num = random.randint(a, b); if num not in special_set:
    return num].  [fuel] bounds the number of draws; [None] stands for a loop
    that has not returned within it. *)
Fixpoint sample_common (fuel : nat) (a b : Z) (set : list Z) (g : Random.state)
  : option (Z * Random.state) :=
  match fuel with
  | O => None
  | S fuel' =>
      let (num, g') := Random.randint a b g in
      if negb (in_set num set) then Some (num, g')
      else sample_common fuel' a b set g'
  end.

(** The branch of [_generate_special_number] for lengths 2 and 3, whose
    numbers range over [a, b]. *)
Definition patterned_number (fuel : nat) (length a b : Z) (g : Random.state)
  : option (Z * Random.state) :=
  let (rand, g) := Random.random g in
  match cumulative_pick rand PrimFloat.zero (NUMBER_PATTERN_WEIGHTS length) with
  | Some pattern_type =>
      if String.eqb pattern_type "common"
      then sample_common fuel a b (special_set length) g
      else Some (Random.choice 0 (special_numbers length pattern_type) g)
  | None => Some (Random.randint a b g)
  end.

Definition _generate_special_number (fuel : nat) (length : Z) (g : Random.state)
  : option (Z * Random.state) :=
  if length =? 1 then
    let (rand, g) := Random.random g in
    if PrimFloat.leb rand 0.30%float
    then Some (Random.choice 0 (special_numbers 1 "lucky") g)
    else Some (Random.choice 0 (special_numbers 1 "regular") g)
  else if length =? 2 then patterned_number fuel 2 10 99 g
  else if length =? 3 then patterned_number fuel 3 100 999 g
  else Some (Random.randint 10 99 g).

Definition tier_data (tier_name : string) : Tier :=
  match lookup tier_name RARITY_TIERS with
  | Some t => t
  | None => COMMON_TIER
  end.

Definition format_code (color word : string) (length number : Z) : string :=
  let suffix :=
    if length =? 1 then PyStr.of_int number
    else if length =? 2 then PyStr.zfill 2 number
    else PyStr.zfill 3 number in
  String.append color (String.append "-" (String.append word (String.append "-" suffix))).

(** One pass through the body of the generation loop, up to the composed code. *)
Record Attempt := {
  a_tier_name : string;
  a_color : string;
  a_word : string;
  a_code : string
}.

Definition attempt (fuel : nat) (g : Random.state) : option (Attempt * Random.state) :=
  let (tier_name, g) := _select_rarity_tier g in
  let tier := tier_data tier_name in
  let (color, g) := Random.choice "" (colors tier) g in
  let (word, g) := Random.choice "" (words tier) g in
  let (length, g) := _select_number_length g in
  match _generate_special_number fuel length g with
  | None => None
  | Some (number, g) =>
      Some ({| a_tier_name := tier_name; a_color := color; a_word := word;
               a_code := format_code color word length number |}, g)
  end.

Definition existing_codes (s : ReferralService) : list string :=
  map Codes.referral_code (codes_sheet s).

(** The code built from the last pass once every attempt collided. *)
Definition fallback_code (last : Attempt) (time_s : Z) : string :=
  let timestamp := time_s mod 100 in
  String.append (a_color last)
    (String.append "-" (String.append (a_word last)
       (String.append "-" (PyStr.zfill 2 timestamp)))).

(** The passes after [last], [attempts] of them left. *)
Fixpoint retry (attempts fuel : nat) (time_s : Z) (s : ReferralService)
    (last : Attempt) (g : Random.state) : option ((string * string) * Random.state) :=
  match attempts with
  | O => Some ((fallback_code last time_s, a_tier_name last), g)
  | S attempts' =>
      match attempt fuel g with
      | None => None
      | Some (a, g) =>
          if negb (PyStr.mem (a_code a) (existing_codes s))
          then Some ((a_code a, a_tier_name a), g)
          else retry attempts' fuel time_s s a g
      end
  end.

Definition max_attempts : nat := 100.

(** [generate_referral_code]: [max_attempts] passes, the first one written
    out so that the fallback always has a last pass to read. [time_s] is
    [int(time.time())]. *)
Definition generate_referral_code (fuel : nat) (time_s : Z) (s : ReferralService)
    (g : Random.state) : option ((string * string) * Random.state) :=
  match attempt fuel g with
  | None => None
  | Some (a, g) =>
      if negb (PyStr.mem (a_code a) (existing_codes s))
      then Some ((a_code a, a_tier_name a), g)
      else retry (max_attempts - 1) fuel time_s s a g
  end.

(** ** The code ledger and the roll economy *)

Module CodeInfo.
(** The dictionary [get_or_create_referral_code] returns; the last two keys
    are absent from the DISABLED answer. *)
Record t := {
  code : string;
  rarity : string;
  rolls_used : Z;
  rolls_remaining : Z;
  successful_referrals : option Z;
  unlock_progress : option string
}.
End CodeInfo.

Definition owned_by (address_lower : string) (row : Codes.row) : bool :=
  String.eqb (PyStr.lower (Codes.address row)) address_lower.

Definition is_active_row (row : Codes.row) : bool :=
  String.eqb (PyStr.lower (Codes.is_active row)) "true".

Definition referred_by (address_lower : string) (r : Referrals.row) : bool :=
  String.eqb (PyStr.lower (Referrals.referrer_address r)) address_lower.

Definition _count_successful_referrals (s : ReferralService) (address : string) : Z :=
  let address := PyStr.lower address in
  Z.of_nat (List.length (filter (referred_by address) (referrals_sheet s))).

(** [max_rolls] as both code-ledger operations compute it. *)
Definition max_rolls_of (successful_refs : Z) : Z :=
  if UNLOCK_THRESHOLD <=? successful_refs then BASE_ROLLS + BONUS_ROLLS else BASE_ROLLS.

Definition max_rolls (s : ReferralService) (address : string) : Z :=
  max_rolls_of (_count_successful_referrals s address).

Definition progress (successful_refs : Z) : string :=
  String.append (PyStr.of_int successful_refs)
    (String.append "/" (PyStr.of_int UNLOCK_THRESHOLD)).

Definition new_code_row (address code rarity : string) (rolls : Z) (timestamp : string)
  : Codes.row :=
  {| Codes.address := address;
     Codes.referral_code := code;
     Codes.rarity := rarity;
     Codes.rolls_used := rolls;
     Codes.is_active := "true";
     Codes.created_at := timestamp |}.

(** The test of the loop over the rows: the row belongs to the address and
    is active. *)
Definition active_for (address_lower : string) (row : Codes.row) : bool :=
  (owned_by address_lower row && is_active_row row)%bool.

(** [get_or_create_referral_code]; [None] only when code generation has not
    returned within [fuel] draws. *)
Definition get_or_create_referral_code (fuel : nat) (time_s : Z) (timestamp : string)
    (g : Random.state) (s : ReferralService) (address : string)
  : option (CodeInfo.t * ReferralService * Random.state) :=
  if negb (enabled s) then
    Some ({| CodeInfo.code := "DISABLED"; CodeInfo.rarity := "UNKNOWN";
             CodeInfo.rolls_used := 0; CodeInfo.rolls_remaining := 0;
             CodeInfo.successful_referrals := None;
             CodeInfo.unlock_progress := None |}, s, g)
  else
    let address := PyStr.lower address in
    match find (active_for address) (codes_sheet s) with
    | Some row =>
        let rolls_used := Codes.rolls_used row in
        let successful_refs := _count_successful_referrals s address in
        let max_rolls := max_rolls_of successful_refs in
        let rolls_remaining := Z.max 0 (max_rolls - rolls_used) in
        Some ({| CodeInfo.code := Codes.referral_code row;
                 CodeInfo.rarity := Codes.rarity row;
                 CodeInfo.rolls_used := rolls_used;
                 CodeInfo.rolls_remaining := rolls_remaining;
                 CodeInfo.successful_referrals := Some successful_refs;
                 CodeInfo.unlock_progress := Some (progress successful_refs) |}, s, g)
    | None =>
        match generate_referral_code fuel time_s s g with
        | None => None
        | Some ((code, rarity), g) =>
            Some ({| CodeInfo.code := code;
                     CodeInfo.rarity := rarity;
                     CodeInfo.rolls_used := 1;
                     CodeInfo.rolls_remaining := BASE_ROLLS - 1;
                     CodeInfo.successful_referrals := Some 0;
                     CodeInfo.unlock_progress := Some (progress 0) |},
                  append_code s (new_code_row address code rarity 1 timestamp), g)
        end
    end.

(** One entry of [user_codes]; [row_index] is the sheet row, which is the
    record's position plus two (the header row, and rows count from one). *)
Record UserCode := {
  row_index : nat;
  uc_rolls_used : Z;
  uc_is_active : bool
}.

Fixpoint user_codes_from (idx : nat) (address_lower : string) (codes : list Codes.row)
  : list UserCode :=
  match codes with
  | [] => []
  | row :: rest =>
      if owned_by address_lower row
      then {| row_index := idx + 2;
              uc_rolls_used := Codes.rolls_used row;
              uc_is_active := is_active_row row |}
           :: user_codes_from (S idx) address_lower rest
      else user_codes_from (S idx) address_lower rest
  end.

Definition set_is_active (value : string) (row : Codes.row) : Codes.row :=
  {| Codes.address := Codes.address row;
     Codes.referral_code := Codes.referral_code row;
     Codes.rarity := Codes.rarity row;
     Codes.rolls_used := Codes.rolls_used row;
     Codes.is_active := value;
     Codes.created_at := Codes.created_at row |}.

Fixpoint update_nth {A : Type} (n : nat) (f : A -> A) (l : list A) : list A :=
  match l, n with
  | [], _ => []
  | x :: rest, O => f x :: rest
  | x :: rest, S n' => x :: update_nth n' f rest
  end.

(** [codes_sheet.update_cell(row, col, value)]; the service writes column 5
    ([is_active]) only. *)
Definition update_cell (row col : nat) (value : string) (sheet : list Codes.row)
  : list Codes.row :=
  if Nat.eqb col 5 then update_nth (row - 2) (set_is_active value) sheet else sheet.

Definition deactivate (user_codes : list UserCode) (sheet : list Codes.row)
  : list Codes.row :=
  fold_left
    (fun sheet user_code =>
       if uc_is_active user_code
       then update_cell (row_index user_code) 5 "false" sheet
       else sheet)
    user_codes sheet.

(** [max(c['rolls_used'] for c in user_codes)], for a non-empty list. *)
Definition max_rolls_used (first : UserCode) (rest : list UserCode) : Z :=
  fold_left (fun m c => Z.max m (uc_rolls_used c)) rest (uc_rolls_used first).

Inductive RegenerateError :=
| RegenerateDisabled
| NoExistingCode
| NoRollsRemaining (current_rolls_used max_rolls successful_refs : Z).

Definition regenerate_error_message (e : RegenerateError) : string :=
  match e with
  | RegenerateDisabled => "Service disabled"
  | NoExistingCode => "No referral code found"
  | NoRollsRemaining current_rolls_used max_rolls _ =>
      String.append "No rolls remaining ("
        (String.append (PyStr.of_int current_rolls_used)
           (String.append "/" (String.append (PyStr.of_int max_rolls) ")")))
  end.

Definition regenerate_referral_code (fuel : nat) (time_s : Z) (timestamp : string)
    (g : Random.state) (s : ReferralService) (address : string)
  : option (result RegenerateError CodeInfo.t * ReferralService * Random.state) :=
  if negb (enabled s) then Some (Err RegenerateDisabled, s, g)
  else
    let address := PyStr.lower address in
    match user_codes_from 0 address (codes_sheet s) with
    | [] => Some (Err NoExistingCode, s, g)
    | first :: rest =>
        let user_codes := first :: rest in
        let current_rolls_used := max_rolls_used first rest in
        let successful_refs := _count_successful_referrals s address in
        let max_rolls := max_rolls_of successful_refs in
        if max_rolls <=? current_rolls_used
        then Some (Err (NoRollsRemaining current_rolls_used max_rolls successful_refs), s, g)
        else
          let s := with_codes s (deactivate user_codes (codes_sheet s)) in
          match generate_referral_code fuel time_s s g with
          | None => None
          | Some ((new_code, new_rarity), g) =>
              let new_rolls_used := current_rolls_used + 1 in
              let rolls_remaining := max_rolls - new_rolls_used in
              Some (Ok {| CodeInfo.code := new_code;
                          CodeInfo.rarity := new_rarity;
                          CodeInfo.rolls_used := new_rolls_used;
                          CodeInfo.rolls_remaining := rolls_remaining;
                          CodeInfo.successful_referrals := Some successful_refs;
                          CodeInfo.unlock_progress := Some (progress successful_refs) |},
                    append_code s
                      (new_code_row address new_code new_rarity new_rolls_used timestamp),
                    g)
          end
    end.

(** ** The daily snapshot *)

(** What [get_token_account_balance] answers for an address: the call (or
    the derivation of the token account before it) raised, the response had
    no value, or it carried an amount. *)
Inductive SolanaResponse :=
| SolanaRaised
| SolanaNoValue
| SolanaAmount (amount : Z).

(** The chain as the snapshot sees it.  A flag says whether the token address
    or the contract is configured; a query answers [None] when the call
    raises. *)
Record Chain := {
  usdx_token_addr : bool;
  eurx_token_addr : bool;
  usdx_staking_available : bool;
  eurx_staking_available : bool;
  solana_configured : bool;
  usdx_balanceOf : string -> option Z;
  eurx_balanceOf : string -> option Z;
  usdx_totalStaked : string -> option Z;
  eurx_totalStaked : string -> option Z;
  get_token_account_balance : string -> SolanaResponse
}.

(** One guarded query of the EVM branch: [total_balance += ...] when the
    query is configured and does not raise. *)
Definition add_query (configured : bool) (answer : option Z) (total_balance : Z) : Z :=
  if configured then
    match answer with
    | Some balance => total_balance + balance
    | None => total_balance
    end
  else total_balance.

Definition evm_total_balance (chain : Chain) (checksum_addr : string) : Z :=
  let total_balance := 0 in
  let total_balance :=
    add_query (usdx_token_addr chain) (usdx_balanceOf chain checksum_addr) total_balance in
  let total_balance :=
    add_query (eurx_token_addr chain) (eurx_balanceOf chain checksum_addr) total_balance in
  let total_balance :=
    add_query (usdx_staking_available chain) (usdx_totalStaked chain checksum_addr)
      total_balance in
  let total_balance :=
    add_query (eurx_staking_available chain) (eurx_totalStaked chain checksum_addr)
      total_balance in
  total_balance.

Definition one_million : float := 1e6%float.

(** [usdx_balance] for one address, or [None] when the loop moves on to the
    next address without reaching the balance test. *)
Definition queried_balance `{AddressLib} (chain : Chain) (address : string) : option float :=
  let addr_info := _validate_address address in
  if negb (valid addr_info) then None
  else
    match addr_type addr_info with
    | Some evm =>
        Some (PyFloat.int_div (evm_total_balance chain (normalized addr_info)) one_million)
    | Some solana =>
        if negb (solana_configured chain) then None
        else
          match get_token_account_balance chain address with
          | SolanaAmount total_balance => Some (PyFloat.int_div total_balance one_million)
          | SolanaNoValue => Some PrimFloat.zero
          | SolanaRaised => Some PrimFloat.zero
          end
    | None => None
    end.

Definition snapshot_row `{AddressLib} (chain : Chain) (today timestamp address : string)
  : list DailyBalances.row :=
  match queried_balance chain address with
  | Some usdx_balance =>
      if PyFloat.positive usdx_balance
      then [ {| DailyBalances.date := today;
                DailyBalances.referred_address := address;
                DailyBalances.usdx_balance := usdx_balance;
                DailyBalances.recorded_at := timestamp |} ]
      else []
  | None => []
  end.

(** [list(set(...))]: each distinct string once; the loop's results do not
    depend on the order in which a set lists them. *)
Fixpoint unique (seen : list string) (l : list string) : list string :=
  match l with
  | [] => []
  | x :: rest =>
      if PyStr.mem x seen then unique seen rest else x :: unique (x :: seen) rest
  end.

Inductive SnapshotError :=
| SnapshotDisabled
| SnapshotExists (today : string).

Record SnapshotStats := {
  st_date : string;
  addresses_checked : Z;
  balances_recorded : Z
}.

Definition snapshot_rows `{AddressLib} (chain : Chain) (today timestamp : string)
    (s : ReferralService) : list DailyBalances.row :=
  flat_map (snapshot_row chain today timestamp)
    (unique [] (map Referrals.referred_address (referrals_sheet s))).

Definition snapshot_daily_balances `{AddressLib} (chain : Chain) (today timestamp : string)
    (s : ReferralService) : result SnapshotError SnapshotStats * ReferralService :=
  if negb (enabled s) then (Err SnapshotDisabled, s)
  else if existsb (fun row => String.eqb (DailyBalances.date row) today)
            (daily_balances_sheet s)
  then (Err (SnapshotExists today), s)
  else
    let unique_referred_addresses :=
      unique [] (map Referrals.referred_address (referrals_sheet s)) in
    let rows := snapshot_rows chain today timestamp s in
    (Ok {| st_date := today;
           addresses_checked := Z.of_nat (List.length unique_referred_addresses);
           balances_recorded := Z.of_nat (List.length rows) |},
     append_balances s rows).

(** ** The leaderboard cache *)

Module LeaderboardCache.
(** A row of the [leaderboard_cache] table.  The float columns hold finite
    values, which are rationals; the database orders them as numbers. *)
Record row := {
  address : string;
  stable_points : Q;
  referral_points : Q;
  referee_bonus : Z;
  referrals : Z;
  usdx_balance : Q;
  eurx_balance : Q;
  usdx_staked : Q;
  eurx_staked : Q;
  total_staked : Q;
  total_points : Q;
  last_updated : string
}.
End LeaderboardCache.

(** The database behind [DatabaseService]: the table's rows. *)
Definition DatabaseService := list LeaderboardCache.row.

(** [total_points > 0]. *)
Definition has_points (e : LeaderboardCache.row) : bool :=
  negb (Qle_bool (LeaderboardCache.total_points e) 0).

(** [order_by(total_points.desc())]: [e1] may stand before [e2]. *)
Module ByPointsDesc <: TotalLeBool.
Definition t := LeaderboardCache.row.
Definition leb (e1 e2 : t) : bool :=
  Qle_bool (LeaderboardCache.total_points e2) (LeaderboardCache.total_points e1).
Lemma leb_total : forall e1 e2, leb e1 e2 = true \/ leb e2 e1 = true.
Proof.
  intros e1 e2. unfold leb.
  destruct (Qlt_le_dec (LeaderboardCache.total_points e1) (LeaderboardCache.total_points e2)) as [Hlt | Hle].
  - right. apply Qle_bool_iff. apply Qlt_le_weak. exact Hlt.
  - left. apply Qle_bool_iff. exact Hle.
Qed.
End ByPointsDesc.

Module OrderBy := Sort ByPointsDesc.

(** The dictionary built for each entry: the row with the time stamp closed
    by a Z. *)
Definition as_dict (e : LeaderboardCache.row) : LeaderboardCache.row :=
  {| LeaderboardCache.address := LeaderboardCache.address e;
     LeaderboardCache.stable_points := LeaderboardCache.stable_points e;
     LeaderboardCache.referral_points := LeaderboardCache.referral_points e;
     LeaderboardCache.referee_bonus := LeaderboardCache.referee_bonus e;
     LeaderboardCache.referrals := LeaderboardCache.referrals e;
     LeaderboardCache.usdx_balance := LeaderboardCache.usdx_balance e;
     LeaderboardCache.eurx_balance := LeaderboardCache.eurx_balance e;
     LeaderboardCache.usdx_staked := LeaderboardCache.usdx_staked e;
     LeaderboardCache.eurx_staked := LeaderboardCache.eurx_staked e;
     LeaderboardCache.total_staked := LeaderboardCache.total_staked e;
     LeaderboardCache.total_points := LeaderboardCache.total_points e;
     LeaderboardCache.last_updated := String.append (LeaderboardCache.last_updated e) "Z" |}.

(** The query of [get_leaderboard]: filter, order, limit. *)
Definition query_leaderboard (db : DatabaseService) (limit : nat) : list LeaderboardCache.row :=
  firstn limit (OrderBy.sort (filter has_points db)).

Definition db_get_leaderboard (db : DatabaseService) (limit : nat) : list LeaderboardCache.row :=
  map as_dict (query_leaderboard db limit).

Definition get_total_entries (db : DatabaseService) : Z :=
  Z.of_nat (List.length (filter has_points db)).

Record CachedResponse := {
  success : bool;
  message : option string;
  leaderboard : list LeaderboardCache.row;
  total_entries : Z;
  cached : option bool
}.

Definition EMPTY_CACHE_MESSAGE : string :=
  "Leaderboard cache is empty. Please run: python update_leaderboard_cache.py".

(** [get_leaderboard_cached]; the query parameter [limit] is between 1 and 500. *)
Definition get_leaderboard_cached (db : DatabaseService) (limit : nat) : CachedResponse :=
  let leaderboard := db_get_leaderboard db limit in
  let total_entries := get_total_entries db in
  if total_entries =? 0 then
    {| success := false; message := Some EMPTY_CACHE_MESSAGE;
       leaderboard := []; total_entries := 0; cached := None |}
  else
    {| success := true; message := None;
       leaderboard := leaderboard; total_entries := total_entries; cached := Some true |}.

(** ** Writing the leaderboard cache *)

(** The [data] dictionary of an upsert: a value for each column it names. *)
Record EntryData := {
  set_stable_points : option Q;
  set_referral_points : option Q;
  set_referee_bonus : option Z;
  set_referrals : option Z;
  set_usdx_balance : option Q;
  set_eurx_balance : option Q;
  set_usdx_staked : option Q;
  set_eurx_staked : option Q;
  set_total_staked : option Q;
  set_total_points : option Q
}.

Definition or_keep {A : Type} (value : option A) (old : A) : A :=
  match value with
  | Some v => v
  | None => old
  end.

(** The update branch: [setattr] for each key of [data], then the time stamp. *)
Definition update_entry (data : EntryData) (now : string) (e : LeaderboardCache.row)
  : LeaderboardCache.row :=
  {| LeaderboardCache.address := LeaderboardCache.address e;
     LeaderboardCache.stable_points :=
       or_keep (set_stable_points data) (LeaderboardCache.stable_points e);
     LeaderboardCache.referral_points :=
       or_keep (set_referral_points data) (LeaderboardCache.referral_points e);
     LeaderboardCache.referee_bonus :=
       or_keep (set_referee_bonus data) (LeaderboardCache.referee_bonus e);
     LeaderboardCache.referrals :=
       or_keep (set_referrals data) (LeaderboardCache.referrals e);
     LeaderboardCache.usdx_balance :=
       or_keep (set_usdx_balance data) (LeaderboardCache.usdx_balance e);
     LeaderboardCache.eurx_balance :=
       or_keep (set_eurx_balance data) (LeaderboardCache.eurx_balance e);
     LeaderboardCache.usdx_staked :=
       or_keep (set_usdx_staked data) (LeaderboardCache.usdx_staked e);
     LeaderboardCache.eurx_staked :=
       or_keep (set_eurx_staked data) (LeaderboardCache.eurx_staked e);
     LeaderboardCache.total_staked :=
       or_keep (set_total_staked data) (LeaderboardCache.total_staked e);
     LeaderboardCache.total_points :=
       or_keep (set_total_points data) (LeaderboardCache.total_points e);
     LeaderboardCache.last_updated := now |}.

(** The row [LeaderboardCache(address=address)] with the column defaults. *)
Definition default_entry (address : string) : LeaderboardCache.row :=
  {| LeaderboardCache.address := address;
     LeaderboardCache.stable_points := 0;
     LeaderboardCache.referral_points := 0;
     LeaderboardCache.referee_bonus := 0;
     LeaderboardCache.referrals := 0;
     LeaderboardCache.usdx_balance := 0;
     LeaderboardCache.eurx_balance := 0;
     LeaderboardCache.usdx_staked := 0;
     LeaderboardCache.eurx_staked := 0;
     LeaderboardCache.total_staked := 0;
     LeaderboardCache.total_points := 0;
     LeaderboardCache.last_updated := "" |}.

Definition has_address (address : string) (e : LeaderboardCache.row) : bool :=
  String.eqb (LeaderboardCache.address e) address.

(** [upsert_leaderboard_entry] on the SQLAlchemy backend: update the entry
    of the address, or add one. *)
Fixpoint upsert_leaderboard_entry (db : DatabaseService) (address : string)
    (data : EntryData) (now : string) : DatabaseService :=
  match db with
  | [] => [update_entry data now (default_entry address)]
  | e :: rest =>
      if has_address address e then update_entry data now e :: rest
      else e :: upsert_leaderboard_entry rest address data now
  end.

Definition get_entry_by_address (db : DatabaseService) (address : string)
  : option LeaderboardCache.row :=
  match find (has_address address) db with
  | Some entry => Some (as_dict entry)
  | None => None
  end.

Definition clear_all (db : DatabaseService) : DatabaseService := [].

(** ** Referee bonus and referrer statistics *)

Definition DAILY_BONUS_RATE : float := 0.1%float.



Record ReferrerStats := {
  total_referrals : Z;
  signup_points : Z;
  daily_points : float;
  total_referral_points : float;
  referred_addresses : list string
}.

(** The loop over the snapshots: every snapshot of an address of
    [referred_set] adds its balance times the daily rate. *)
Definition sum_daily_points (referred_set : list string)
    (snapshots : list DailyBalances.row) : float :=
  fold_left
    (fun daily_points snapshot =>
       if PyStr.mem (PyStr.lower (DailyBalances.referred_address snapshot)) referred_set
       then PrimFloat.add daily_points
              (PrimFloat.mul (DailyBalances.usdx_balance snapshot) DAILY_BONUS_RATE)
       else daily_points)
    snapshots PrimFloat.zero.


(** [get_referrer_stats] and [get_leaderboard]; [round2] is the builtin
    [round(x, 2)].  The sums are floats from the start (Python keeps the
    integer 0 until the first snapshot is added, which is the same number). *)
Definition get_referrer_stats (round2 : float -> float) (s : ReferralService)
    (address : string) : ReferrerStats :=
  if negb (enabled s) then
    {| total_referrals := 0; signup_points := 0; daily_points := PrimFloat.zero;
       total_referral_points := PrimFloat.zero; referred_addresses := [] |}
  else
    let address := PyStr.lower address in
    let user_referrals := filter (referred_by address) (referrals_sheet s) in
    let total_referrals := Z.of_nat (List.length user_referrals) in
    let signup_points := total_referrals * SIGNUP_BONUS in
    let referred_addresses := map Referrals.referred_address user_referrals in
    let referred_set := map PyStr.lower referred_addresses in
    let daily_points := sum_daily_points referred_set (daily_balances_sheet s) in
    let total_points := PrimFloat.add (PyFloat.of_int signup_points) daily_points in
    {| total_referrals := total_referrals;
       signup_points := signup_points;
       daily_points := round2 daily_points;
       total_referral_points := round2 total_points;
       referred_addresses := referred_addresses |}.

Module Leaderboard.
Record entry := {
  address : string;
  total_referrals : Z;
  referral_points : float
}.
End Leaderboard.







(** [pending_points_raw] of the leaderboard endpoints: points accrued since
    the last update, in units of 10^-11 point, by floor division. *)
Definition pending_points_raw (staked_amount seconds_elapsed : Z) : Z :=
  (staked_amount * seconds_elapsed * 10 ^ 11) / (10 ^ 6 * 86400).

(** ** The other endpoints of the code ledger *)

Module Router.

Inductive CodeFailure :=
| InvalidEthereumAddress
| ServiceUnavailable
| RegenerateFailed (e : RegenerateError).

Definition status_code (f : CodeFailure) : Z :=
  match f with
  | InvalidEthereumAddress => 400
  | ServiceUnavailable => 503
  | RegenerateFailed _ => 400
  end.

Definition detail (f : CodeFailure) : string :=
  match f with
  | InvalidEthereumAddress => "Invalid Ethereum address"
  | ServiceUnavailable => "Referral service temporarily unavailable"
  | RegenerateFailed e => regenerate_error_message e
  end.

Record CodeData := {
  referral_code : string;
  rarity : string;
  rolls_used : Z;
  rolls_remaining : Z;
  successful_referrals : Z;
  unlock_progress : string;
  share_url : string;
  address : string
}.

(** The [data] of both answers; the two [.get] defaults stand in for keys
    the service left out. *)
Definition code_data (info : CodeInfo.t) (checksum_addr : string) : CodeData :=
  {| referral_code := CodeInfo.code info;
     rarity := CodeInfo.rarity info;
     rolls_used := CodeInfo.rolls_used info;
     rolls_remaining := CodeInfo.rolls_remaining info;
     successful_referrals :=
       match CodeInfo.successful_referrals info with Some n => n | None => 0 end;
     unlock_progress :=
       match CodeInfo.unlock_progress info with Some p => p | None => "0/10" end;
     share_url := String.append "https://app.trystable.co?ref=" (CodeInfo.code info);
     address := checksum_addr |}.

(** [GET /{address}/code]. *)
Definition get_referral_code `{AddressLib} (fuel : nat) (time_s : Z) (timestamp : string)
    (g : Random.state) (s : ReferralService) (address : string)
  : option (result CodeFailure CodeData * ReferralService * Random.state) :=
  if negb (is_address address) then Some (Err InvalidEthereumAddress, s, g)
  else
    let checksum_addr := to_checksum_address address in
    match get_or_create_referral_code fuel time_s timestamp g s checksum_addr with
    | None => None
    | Some (code_data_, s', g') =>
        if PyStr.mem (CodeInfo.code code_data_) ["DISABLED"; "ERROR"]
        then Some (Err ServiceUnavailable, s', g')
        else Some (Ok (code_data code_data_ checksum_addr), s', g')
    end.

(** [POST /{address}/regenerate]. *)
Definition regenerate_referral_code `{AddressLib} (fuel : nat) (time_s : Z)
    (timestamp : string) (g : Random.state) (s : ReferralService) (address : string)
  : option (result CodeFailure CodeData * ReferralService * Random.state) :=
  if negb (is_address address) then Some (Err InvalidEthereumAddress, s, g)
  else
    let checksum_addr := to_checksum_address address in
    match regenerate_referral_code fuel time_s timestamp g s checksum_addr with
    | None => None
    | Some (Err e, s', g') => Some (Err (RegenerateFailed e), s', g')
    | Some (Ok info, s', g') => Some (Ok (code_data info checksum_addr), s', g')
    end.



(** [GET /{address}/stats]. *)
Definition get_referral_stats `{AddressLib} (round2 : float -> float) (s : ReferralService)
    (address : string) : result CodeFailure ReferrerStats :=
  if negb (is_address address) then Err InvalidEthereumAddress
  else Ok (get_referrer_stats round2 s (to_checksum_address address)).



End Router.

(** ** Histories of the service *)

(** The service as [__init__] leaves it over a fresh spreadsheet. *)
Definition initial : ReferralService :=
  {| enabled := true; codes_sheet := []; referrals_sheet := [];
     daily_balances_sheet := [] |}.

(** One call of an operation that writes, with any inputs, one after the
    other (the service is not safe for concurrent writers). *)
Inductive step `{AddressLib} : ReferralService -> ReferralService -> Prop :=
| step_get_or_create : forall fuel time_s timestamp g s address info s' g',
    get_or_create_referral_code fuel time_s timestamp g s address = Some (info, s', g') ->
    step s s'
| step_regenerate : forall fuel time_s timestamp g s address res s' g',
    regenerate_referral_code fuel time_s timestamp g s address = Some (res, s', g') ->
    step s s'
| step_use : forall timestamp s request res s',
    use_referral_code timestamp s request = (res, s') ->
    step s s'
| step_snapshot : forall chain today timestamp s res s',
    snapshot_daily_balances chain today timestamp s = (res, s') ->
    step s s'.

Inductive reachable `{AddressLib} : ReferralService -> Prop :=
| reachable_initial : reachable initial
| reachable_step : forall s s', reachable s -> step s s' -> reachable s'.


(** An entropy tape on which every rejection loop of the generator comes to
    an accepted draw, wherever it starts. *)
Definition accepted (length a b : Z) (raw : Z) : bool :=
  negb (in_set (a + raw mod (b - a + 1)) (special_set length)).

Definition fair (tape : nat -> Z) : Prop :=
  forall p : nat, exists k : nat,
    accepted 2 10 99 (tape (p + k)%nat) = true /\
    accepted 3 100 999 (tape (p + k)%nat) = true.

(** ** Predicates of the statements *)



(** The key under which the ledger knows a referred address. *)
Definition referred_key (row : Referrals.row) : string :=
  PyStr.lower (Referrals.referred_address row).

(** A stored count of rolls is within the limit of the row's address. *)
Definition within_rolls (s : ReferralService) (row : Codes.row) : Prop :=
  Codes.rolls_used row <= max_rolls s (Codes.address row).

(** The generator [k] cells further along its tape. *)
Definition advance (g : Random.state) (k : nat) : Random.state :=
  {| Random.tape := Random.tape g; Random.cursor := (Random.cursor g + k)%nat |}.

(** A computation bounded by fuel settles when, from some amount of fuel on,
    it returns one and the same result, leaving the tape it was given. *)
Definition settles {A : Type} (g : Random.state) (run : nat -> option (A * Random.state))
  : Prop :=
  exists fuel0 r, Random.tape (snd r) = Random.tape g /\
    forall fuel, (fuel0 <= fuel)%nat -> run fuel = Some r.

(** [e1] ranks at or above [e2]. *)
Definition ranked_before (e1 e2 : LeaderboardCache.row) : Prop :=
  (LeaderboardCache.total_points e2 <= LeaderboardCache.total_points e1)%Q.

(** The four queries about an EVM address all raise. *)
Definition evm_queries_fail (chain : Chain) (checksum_addr : string) : Prop :=
  usdx_balanceOf chain checksum_addr = None /\
  eurx_balanceOf chain checksum_addr = None /\
  usdx_totalStaked chain checksum_addr = None /\
  eurx_totalStaked chain checksum_addr = None.

(** The queried balance of a valid address is zero, or its query fails. *)
Definition without_balance `{AddressLib} (chain : Chain) (address : string) : Prop :=
  match addr_type (_validate_address address) with
  | Some evm =>
      evm_total_balance chain (normalized (_validate_address address)) = 0 \/
      evm_queries_fail chain (normalized (_validate_address address))
  | Some solana =>
      get_token_account_balance chain address = SolanaRaised \/
      get_token_account_balance chain address = SolanaNoValue \/
      get_token_account_balance chain address = SolanaAmount 0
  | None => True
  end.

(** The key of a daily balance: its day and its address. *)
Definition balance_key (row : DailyBalances.row) : string * string :=
  (DailyBalances.date row, DailyBalances.referred_address row).

(** What a regeneration for an address does to a row: an active row of the
    address is switched off, any other row stays. *)
Definition retire (address_lower : string) (row : Codes.row) : Codes.row :=
  if active_for address_lower row then set_is_active "false" row else row.

(** The rows of an address are in order: all but the last are switched off
    and hold fewer rolls than the last, which is active. *)
Definition last_is_active (owned : list Codes.row) : Prop :=
  owned = [] \/
  exists earlier last,
    owned = earlier ++ [last] /\
    is_active_row last = true /\
    Forall (fun row => is_active_row row = false /\
                       Codes.rolls_used row < Codes.rolls_used last) earlier.

(** A dash occurs in the string. *)
Fixpoint has_dash (s : string) : bool :=
  match s with
  | EmptyString => false
  | String c t => (Ascii.eqb c "-" || has_dash t)%bool
  end.

(** [s'] is [s] after any number of calls. *)
Inductive later `{AddressLib} (s : ReferralService) : ReferralService -> Prop :=
| later_now : later s s
| later_step : forall s1 s2, later s s1 -> step s1 s2 -> later s s2.

(** ** Sample data

    The address libraries restricted to a handful of addresses: the
    checksummed examples of EIP-55 and the two program ids the snapshot names.
    On these strings (and their lower-case forms) the instance answers as
    Web3 and solders do. *)

Module Demo.

Definition ALICE : string := "0x5aAeb6053F3E94C9b9A09f33669435E7Ef1BeAed".
Definition BOB : string := "0xfB6916095ca1df60bB79Ce92cE3Ea74c37c5d359".
Definition CAROL : string := "0xdbF03B407c01E7cD3CBea99509d93f8DDDC8C6FB".
Definition TOKEN_PROGRAM : string := "TokenkegQfeZyiNwAJbNbGKPFXCWuBvf9Ss623VQ5DA".
Definition ATA_PROGRAM : string := "ATokenGPvbdGVxr1b2hvZbsiqW5xWH25efTNsLJA8knL".

Definition checksummed : list string := [ALICE; BOB; CAROL; PLACEHOLDER_ADDRESS].
Definition public_keys : list string := [TOKEN_PROGRAM; ATA_PROGRAM].

Definition checksum_of (address : string) : option string :=
  find (fun c => String.eqb (PyStr.lower c) (PyStr.lower address)) checksummed.

Definition lib : AddressLib :=
  {| is_address := fun address =>
       match checksum_of address with
       | Some c => (String.eqb address c || String.eqb address (PyStr.lower c))%bool
       | None => false
       end;
     to_checksum_address := fun address =>
       match checksum_of address with
       | Some c => c
       | None => address
       end;
     pubkey_from_string := fun address => PyStr.mem address public_keys |}.

(** A tape repeating one cell. *)
Definition constant (raw : Z) : Random.state :=
  {| Random.tape := fun _ => raw; Random.cursor := 0 |}.

Definition NOW : string := "2025-10-30T12:00:00.000000Z".
Definition TODAY : string := "2025-10-30".

(** The service after a call, whatever the call answered. *)
Definition created (g : Random.state) (time_s : Z) (s : ReferralService) (address : string)
  : ReferralService :=
  match get_or_create_referral_code 8 time_s NOW g s address with
  | Some (_, s', _) => s'
  | None => s
  end.

Definition used (s : ReferralService) (code address : string) (amount : float)
  : ReferralService :=
  snd (@use_referral_code lib NOW s
         {| req_referral_code := code; req_referred_address := address;
            req_swap_amount_usdc := amount |}).

(** Bob and Alice take a code each; Alice then swaps with Bob's code. *)
Definition s_bob : ReferralService := created (constant (2 ^ 52)) 0 initial BOB.
Definition s_codes : ReferralService := created (constant 0) 0 s_bob ALICE.
Definition s_referred : ReferralService := used s_codes "ASH-WAVE-26" ALICE 150%float.

Definition regenerated (g : Random.state) (s : ReferralService) (address : string)
  : ReferralService :=
  match regenerate_referral_code 8 0 NOW g s address with
  | Some (_, s', _) => s'
  | None => s
  end.

(** Bob rolls twice more after his first code. *)
Definition s_rolled : ReferralService :=
  regenerated (constant 12345678901234567)
    (regenerated (constant (2 ^ 53 - 1)) s_bob BOB) BOB.


(** A second referred user, on Solana, through the special code PUNK. *)
Definition s_two : ReferralService := used s_referred "PUNK" TOKEN_PROGRAM 5%float.

(** A chain on which every query about Alice raises and the Solana account
    holds 2.5 tokens. *)
Definition chain : Chain :=
  {| usdx_token_addr := true;
     eurx_token_addr := true;
     usdx_staking_available := true;
     eurx_staking_available := true;
     solana_configured := true;
     usdx_balanceOf := fun _ => None;
     eurx_balanceOf := fun _ => None;
     usdx_totalStaked := fun _ => None;
     eurx_totalStaked := fun _ => None;
     get_token_account_balance := fun _ => SolanaAmount 2500000 |}.

Definition entry (address : string) (points : Z) : LeaderboardCache.row :=
  {| LeaderboardCache.address := address;
     LeaderboardCache.stable_points := 0;
     LeaderboardCache.referral_points := inject_Z points;
     LeaderboardCache.referee_bonus := 0;
     LeaderboardCache.referrals := 0;
     LeaderboardCache.usdx_balance := 0;
     LeaderboardCache.eurx_balance := 0;
     LeaderboardCache.usdx_staked := 0;
     LeaderboardCache.eurx_staked := 0;
     LeaderboardCache.total_staked := 0;
     LeaderboardCache.total_points := inject_Z points;
     LeaderboardCache.last_updated := "2025-10-30T12:00:00" |}.

(** The cache of the ordering example: totals 10, 30, 20. *)
Definition cache : DatabaseService := [entry ALICE 10; entry BOB 30; entry CAROL 20].

End Demo.

(** ** Further sample states *)

Module Scenario.

Definition s_snapshot : ReferralService :=
  snd (@snapshot_daily_balances Demo.lib Demo.chain Demo.TODAY Demo.NOW Demo.s_two).


End Scenario.

(** ** Strings *)

Section Strings.

Lemma lower_ascii_idempotent : forall c, PyStr.lower_ascii (PyStr.lower_ascii c) = PyStr.lower_ascii c.
Proof.
  intros c. destruct c as [[] [] [] [] [] [] [] []]; reflexivity.
Qed.

Lemma lower_idempotent : forall s, PyStr.lower (PyStr.lower s) = PyStr.lower s.
Proof.
  induction s as [| c t IH]; simpl.
  - reflexivity.
  - rewrite lower_ascii_idempotent, IH. reflexivity.
Qed.

Lemma truthy_empty : forall s, PyStr.truthy s = false -> s = "".
Proof.
  intros s Hs. destruct s; [reflexivity | discriminate].
Qed.

End Strings.

(** ** The ledger of referral events *)

Section ReferralLedger.

Context `{AddressLib}.

Lemma find_existsb : forall (A : Type) (p : A -> bool) (l : list A),
  existsb p l = match find p l with Some _ => true | None => false end.
Proof.
  intros A p l. induction l as [| x l IH]; simpl.
  - reflexivity.
  - destruct (p x); [reflexivity | exact IH].
Qed.

Lemma check_if_referred_existsb : forall s address,
  enabled s = true ->
  (check_if_referred s address <> None <->
   existsb (referred_is (PyStr.lower address)) (referrals_sheet s) = true).
Proof.
  intros s address Hen. unfold check_if_referred. rewrite Hen. simpl.
  rewrite find_existsb.
  destruct (find (referred_is (PyStr.lower address)) (referrals_sheet s)).
  - split; [reflexivity | discriminate].
  - split; [intros Hn; contradiction Hn; reflexivity | discriminate].
Qed.

Lemma get_address_by_code_enabled : forall s code owner,
  get_address_by_code s code = Some owner -> enabled s = true.
Proof.
  intros s code owner. unfold get_address_by_code.
  destruct (enabled s); [reflexivity | discriminate].
Qed.

(** [record_referral] writes nothing unless it succeeds, and then appends one
    row whose referred address the ledger did not hold. *)
Lemma record_referral_cases : forall timestamp s referrer referred amount code,
  match record_referral timestamp s referrer referred amount code with
  | (Err _, s') => s' = s
  | (Ok _, s') =>
      exists row, s' = append_referral s row /\
        Referrals.referral_code row = code /\
        Referrals.swap_amount_usdc row = amount /\
        Referrals.referred_address row = normalized (_validate_address referred) /\
        existsb (referred_is (PyStr.lower (Referrals.referred_address row)))
          (referrals_sheet s) = false
  end.
Proof.
  intros timestamp s referrer referred amount code. unfold record_referral.
  destruct (negb (enabled s)); [reflexivity |].
  destruct (negb (is_valid (get_code_benefits s code))); [reflexivity |].
  destruct (if String.eqb referrer SPECIAL_CODE then Some PLACEHOLDER_ADDRESS
            else if valid (_validate_address referrer)
                 then Some (normalized (_validate_address referrer)) else None)
    as [referrer' |]; [| reflexivity].
  destruct (negb (valid (_validate_address referred))); [reflexivity |].
  destruct (existsb (referred_is (PyStr.lower (normalized (_validate_address referred))))
              (referrals_sheet s)) eqn:Hseen; [reflexivity |].
  destruct (PyFloat.lt_int amount (min_swap (get_code_benefits s code))); [reflexivity |].
  eexists. split; [reflexivity |]. simpl. repeat split. exact Hseen.
Qed.

End ReferralLedger.

(** [use_referral_code] leaves the service alone or appends one event whose
    referred address no earlier event names. *)
Lemma use_referral_code_effect `{AddressLib} : forall timestamp s request res s',
  use_referral_code timestamp s request = (res, s') ->
  s' = s \/
  exists row, s' = append_referral s row /\
    existsb (referred_is (PyStr.lower (Referrals.referred_address row)))
      (referrals_sheet s) = false.
Proof.
  intros timestamp s request res s'. unfold use_referral_code.
  destruct (negb (valid (_validate_address (req_referred_address request)))).
  { intros E; inversion E; left; reflexivity. }
  destruct (get_address_by_code s (req_referral_code request)) as [owner |].
  2: { intros E; inversion E; left; reflexivity. }
  destruct (negb (PyStr.truthy owner)).
  { intros E; inversion E; left; reflexivity. }
  destruct (check_if_referred s _).
  { intros E; inversion E; left; reflexivity. }
  destruct (String.eqb _ _).
  { intros E; inversion E; left; reflexivity. }
  pose proof (record_referral_cases timestamp s owner
                (normalized (_validate_address (req_referred_address request)))
                (req_swap_amount_usdc request) (req_referral_code request)) as Hcases.
  destruct (record_referral _ _ _ _ _ _) as [[e | r] s1].
  - intros E; inversion E; subst. left; reflexivity.
  - intros E; inversion E; subst. right.
    destruct Hcases as [row [Hs [_ [_ [_ Hfresh]]]]].
    exists row. split; assumption.
Qed.

(** ** Invariants of the histories *)

Section Effects.

Context `{AddressLib}.

Lemma get_or_create_effect : forall fuel time_s timestamp g s address info s' g',
  get_or_create_referral_code fuel time_s timestamp g s address = Some (info, s', g') ->
  s' = s \/
  s' = append_code s
         (new_code_row (PyStr.lower address) (CodeInfo.code info) (CodeInfo.rarity info)
            1 timestamp).
Proof.
  intros fuel time_s timestamp g s address info s' g'.
  unfold get_or_create_referral_code.
  destruct (negb (enabled s)).
  { intros E; inversion E; left; reflexivity. }
  destruct (find _ (codes_sheet s)).
  { intros E; inversion E; left; reflexivity. }
  destruct (generate_referral_code fuel time_s s g) as [[[code rarity] g1] |].
  - intros E; inversion E; subst. right. reflexivity.
  - discriminate.
Qed.

Lemma regenerate_effect : forall fuel time_s timestamp g s address res s' g',
  regenerate_referral_code fuel time_s timestamp g s address = Some (res, s', g') ->
  s' = s \/
  exists first rest code rarity,
    user_codes_from 0 (PyStr.lower address) (codes_sheet s) = first :: rest /\
    max_rolls_used first rest < max_rolls s (PyStr.lower address) /\
    s' = append_code (with_codes s (deactivate (first :: rest) (codes_sheet s)))
           (new_code_row (PyStr.lower address) code rarity
              (max_rolls_used first rest + 1) timestamp).
Proof.
  intros fuel time_s timestamp g s address res s' g'.
  unfold regenerate_referral_code.
  destruct (negb (enabled s)).
  { intros E; inversion E; left; reflexivity. }
  destruct (user_codes_from 0 (PyStr.lower address) (codes_sheet s)) as [| first rest] eqn:Hcodes.
  { intros E; inversion E; left; reflexivity. }
  destruct (max_rolls_of (_count_successful_referrals s (PyStr.lower address))
              <=? max_rolls_used first rest) eqn:Hmax.
  { intros E; inversion E; left; reflexivity. }
  destruct (generate_referral_code _ _ _ _) as [[[code rarity] g1] |]; [| discriminate].
  intros E; inversion E; subst. right.
  exists first, rest, code, rarity. split; [reflexivity |]. split; [| reflexivity].
  unfold max_rolls. apply Z.leb_gt in Hmax. exact Hmax.
Qed.

Lemma snapshot_effect : forall chain today timestamp s res s',
  snapshot_daily_balances chain today timestamp s = (res, s') ->
  s' = s \/ s' = append_balances s (snapshot_rows chain today timestamp s).
Proof.
  intros chain today timestamp s res s'. unfold snapshot_daily_balances.
  destruct (negb (enabled s)).
  { intros E; inversion E; left; reflexivity. }
  destruct (existsb _ (daily_balances_sheet s)).
  { intros E; inversion E; left; reflexivity. }
  intros E; inversion E; right; reflexivity.
Qed.

End Effects.

(** Case analysis on a step, each call replaced by what it did to the
    service. *)
Ltac step_effect Hstep E :=
  destruct Hstep as
    [fuel time_s timestamp g s address info s' g' E
    | fuel time_s timestamp g s address res s' g' E
    | timestamp s request res s' E
    | chain today timestamp s res s' E];
  [ apply get_or_create_effect in E
  | apply regenerate_effect in E
  | apply use_referral_code_effect in E
  | apply snapshot_effect in E ].

Section Histories.

Context `{AddressLib}.

(** What a step does to the referral ledger. *)
Lemma step_referrals : forall s s',
  step s s' ->
  referrals_sheet s' = referrals_sheet s \/
  exists row, referrals_sheet s' = referrals_sheet s ++ [row] /\
    existsb (referred_is (PyStr.lower (Referrals.referred_address row)))
      (referrals_sheet s) = false.
Proof.
  intros s s' Hstep. step_effect Hstep E.
  - destruct E as [E | E]; subst; left; reflexivity.
  - destruct E as [E | [first [rest [code [rarity [_ [_ E]]]]]]]; subst; left; reflexivity.
  - destruct E as [E | [row [E Hfresh]]]; subst.
    + left; reflexivity.
    + right. exists row. split; [reflexivity | exact Hfresh].
  - destruct E as [E | E]; subst; left; reflexivity.
Qed.

Lemma step_enabled : forall s s', step s s' -> enabled s' = enabled s.
Proof.
  intros s s' Hstep. step_effect Hstep E.
  - destruct E as [E | E]; subst; reflexivity.
  - destruct E as [E | [first [rest [code [rarity [_ [_ E]]]]]]]; subst; reflexivity.
  - destruct E as [E | [row [E _]]]; subst; reflexivity.
  - destruct E as [E | E]; subst; reflexivity.
Qed.

Lemma reachable_enabled : forall s, reachable s -> enabled s = true.
Proof.
  intros s Hreach. induction Hreach as [| s s' _ IH Hstep].
  - reflexivity.
  - rewrite (step_enabled _ _ Hstep). exact IH.
Qed.

Lemma existsb_referred_is_false : forall key rows,
  existsb (referred_is key) rows = false -> ~ In key (map referred_key rows).
Proof.
  intros key rows. induction rows as [| row rows IH]; simpl.
  - intros _ [].
  - intros Hnone. apply orb_false_iff in Hnone. destruct Hnone as [Hrow Hrows].
    intros [Hhere | Hthere].
    + unfold referred_is in Hrow. apply String.eqb_neq in Hrow.
      apply Hrow. exact Hhere.
    + exact (IH Hrows Hthere).
Qed.

(** At most one event per referred address, in every history. *)
Lemma reachable_referred_once : forall s,
  reachable s -> NoDup (map referred_key (referrals_sheet s)).
Proof.
  intros s Hreach. induction Hreach as [| s s' _ IH Hstep].
  - constructor.
  - destruct (step_referrals _ _ Hstep) as [Hsame | [row [Happ Hfresh]]].
    + rewrite Hsame. exact IH.
    + rewrite Happ, map_app. simpl.
      assert (Hperm : Permutation (referred_key row :: map referred_key (referrals_sheet s))
                        (map referred_key (referrals_sheet s) ++ [referred_key row])).
      { change (referred_key row :: map referred_key (referrals_sheet s))
          with ([referred_key row] ++ map referred_key (referrals_sheet s)).
        apply Permutation_app_comm. }
      apply (Permutation_NoDup Hperm). constructor.
      * apply existsb_referred_is_false. exact Hfresh.
      * exact IH.
Qed.



End Histories.

(** ** The calls of the [/use] endpoint *)


Section DemoHistories.

Context `{AddressLib}.

Lemma created_reachable : forall g time_s s address,
  reachable s -> reachable (Demo.created g time_s s address).
Proof.
  intros g time_s s address Hreach. unfold Demo.created.
  destruct (get_or_create_referral_code 8 time_s Demo.NOW g s address)
    as [[[info s'] g'] |] eqn:E.
  - eapply reachable_step; [exact Hreach |]. eapply step_get_or_create. exact E.
  - exact Hreach.
Qed.

End DemoHistories.

Lemma used_reachable : forall s code address amount,
  @reachable Demo.lib s -> @reachable Demo.lib (Demo.used s code address amount).
Proof.
  intros s code address amount Hreach. unfold Demo.used.
  destruct (@use_referral_code Demo.lib Demo.NOW s _) as [res s'] eqn:E.
  eapply reachable_step; [exact Hreach |]. eapply step_use. exact E.
Qed.

Lemma s_codes_reachable : @reachable Demo.lib Demo.s_codes.
Proof.
  unfold Demo.s_codes, Demo.s_bob.
  apply created_reachable. apply created_reachable. apply reachable_initial.
Qed.

Lemma s_referred_reachable : @reachable Demo.lib Demo.s_referred.
Proof.
  unfold Demo.s_referred. apply used_reachable. apply s_codes_reachable.
Qed.




(** C3, as amended.  When the referred address is valid, has no event in the
    ledger yet, and the code resolves to a (non-empty) owner, the call fails
    with [SelfReferral] and writes nothing exactly when the owner equals the
    normalized referred address up to case, whatever the amount; an owner
    that differs from it up to case, as the marker of the special codes does
    from every address, never yields [SelfReferral]. *)
Theorem self_referral_rejected `{AddressLib} : forall timestamp s request owner,
  valid (_validate_address (req_referred_address request)) = true ->
  get_address_by_code s (req_referral_code request) = Some owner ->
  owner <> "" ->
  check_if_referred s (normalized (_validate_address (req_referred_address request))) = None ->
  (PyStr.lower owner
     = PyStr.lower (normalized (_validate_address (req_referred_address request))) ->
   use_referral_code timestamp s request = (Err SelfReferral, s)) /\
  (PyStr.lower owner
     <> PyStr.lower (normalized (_validate_address (req_referred_address request))) ->
   fst (use_referral_code timestamp s request) <> Err SelfReferral).
Proof.
  intros timestamp s request owner Hvalid Howner Hnonempty Hfresh.
  assert (Htruthy : PyStr.truthy owner = true).
  { destruct (PyStr.truthy owner) eqn:Ht; [reflexivity |].
    apply truthy_empty in Ht. contradiction. }
  unfold use_referral_code. rewrite Hvalid, Howner, Htruthy, Hfresh. simpl.
  split.
  - intros Hself. apply String.eqb_eq in Hself. rewrite Hself. reflexivity.
  - intros Hother. apply String.eqb_neq in Hother. rewrite Hother.
    destruct (record_referral _ _ _ _ _ _) as [[e | r] s']; simpl; discriminate.
Qed.

(** Alice names herself with her own code before anyone referred her. *)
Lemma self_referral_rejected_witness :
  let request := {| req_referral_code := "GOLD-SATOSHI-7"; req_referred_address := Demo.ALICE;
                    req_swap_amount_usdc := 150%float |} in
  @use_referral_code Demo.lib Demo.NOW Demo.s_codes request = (Err SelfReferral, Demo.s_codes).
Proof.
  intros request.
  apply (@self_referral_rejected Demo.lib Demo.NOW Demo.s_codes request
           (PyStr.lower Demo.ALICE)).
  - reflexivity.
  - reflexivity.
  - discriminate.
  - reflexivity.
  - reflexivity.
Defined.

(** C3, as stated, fails: in [Demo.s_referred] Alice owns GOLD-SATOSHI-7 and
    150 is above its minimum of 100, but she was referred earlier, and the
    call naming her with her own code answers [AlreadyReferred]. *)
Lemma self_referral_after_referral :
  let request := {| req_referral_code := "GOLD-SATOSHI-7"; req_referred_address := Demo.ALICE;
                    req_swap_amount_usdc := 150%float |} in
  get_address_by_code Demo.s_referred "GOLD-SATOSHI-7" = Some (PyStr.lower Demo.ALICE) /\
  PyStr.lower (PyStr.lower Demo.ALICE)
    = PyStr.lower (normalized (@_validate_address Demo.lib Demo.ALICE)) /\
  PyFloat.lt_int 150%float (min_swap (get_code_benefits Demo.s_referred "GOLD-SATOSHI-7")) = false /\
  @use_referral_code Demo.lib Demo.NOW Demo.s_referred request
    = (Err AlreadyReferred, Demo.s_referred) /\
  fst (@use_referral_code Demo.lib Demo.NOW Demo.s_referred request) <> Err SelfReferral.
Proof.
  intros request. repeat split; try reflexivity.
  vm_compute. discriminate.
Qed.

(** ** The roll limit *)

Section Rolls.

Context `{AddressLib}.

Lemma count_lower : forall s address,
  _count_successful_referrals s (PyStr.lower address) = _count_successful_referrals s address.
Proof.
  intros s address. unfold _count_successful_referrals.
  rewrite lower_idempotent. reflexivity.
Qed.

Lemma max_rolls_lower : forall s address,
  max_rolls s (PyStr.lower address) = max_rolls s address.
Proof.
  intros s address. unfold max_rolls. rewrite count_lower. reflexivity.
Qed.

Lemma max_rolls_of_bounds : forall n, 3 <= max_rolls_of n <= 6.
Proof.
  intros n. unfold max_rolls_of, BASE_ROLLS, BONUS_ROLLS.
  destruct (UNLOCK_THRESHOLD <=? n); lia.
Qed.

Lemma max_rolls_of_mono : forall n m, n <= m -> max_rolls_of n <= max_rolls_of m.
Proof.
  intros n m Hnm. unfold max_rolls_of, BASE_ROLLS, BONUS_ROLLS, UNLOCK_THRESHOLD.
  destruct (3 <=? n) eqn:Hn; destruct (3 <=? m) eqn:Hm; lia.
Qed.

Lemma max_rolls_append_referral : forall s row address,
  max_rolls s address <= max_rolls (append_referral s row) address.
Proof.
  intros s row address. unfold max_rolls, _count_successful_referrals.
  apply max_rolls_of_mono. simpl. rewrite filter_app, length_app. lia.
Qed.

Lemma update_nth_Forall : forall (A : Type) (P : A -> Prop) (f : A -> A) n l,
  (forall x, P x -> P (f x)) -> Forall P l -> Forall P (update_nth n f l).
Proof.
  intros A P f n l Hf. revert n. induction l as [| x l IH]; intros n Hall.
  - destruct n; constructor.
  - inversion Hall as [| y ys Hx Hl]; subst. destruct n; simpl.
    + constructor; [apply Hf; exact Hx | exact Hl].
    + constructor; [exact Hx | apply IH; exact Hl].
Qed.

Lemma deactivate_Forall : forall (P : Codes.row -> Prop) user_codes sheet,
  (forall value row, P row -> P (set_is_active value row)) ->
  Forall P sheet -> Forall P (deactivate user_codes sheet).
Proof.
  intros P user_codes sheet Hset. unfold deactivate. revert sheet.
  induction user_codes as [| uc ucs IH]; intros sheet Hall; simpl.
  - exact Hall.
  - apply IH. destruct (uc_is_active uc); [| exact Hall].
    unfold update_cell. simpl. apply update_nth_Forall; [apply Hset | exact Hall].
Qed.

Lemma within_rolls_ext : forall s s' row,
  referrals_sheet s' = referrals_sheet s -> within_rolls s row -> within_rolls s' row.
Proof.
  intros s s' row Hsame. unfold within_rolls, max_rolls, _count_successful_referrals.
  rewrite Hsame. intros Hrow. exact Hrow.
Qed.

Lemma step_within_rolls : forall s s',
  step s s' -> Forall (within_rolls s) (codes_sheet s) ->
  Forall (within_rolls s') (codes_sheet s').
Proof.
  intros s s' Hstep Hall. step_effect Hstep E.
  - destruct E as [E | E]; subst; [exact Hall |].
    cbn [codes_sheet append_code]. apply Forall_app. split.
    + eapply Forall_impl; [| exact Hall].
      intros r. apply within_rolls_ext. reflexivity.
    + constructor; [| constructor]. unfold within_rolls, max_rolls.
      match goal with
      | |- _ <= max_rolls_of ?n => pose proof (max_rolls_of_bounds n) as Hbounds
      end.
      cbn [Codes.rolls_used new_code_row]. lia.
  - destruct E as [E | [first [rest [code [rarity [_ [Hroom E]]]]]]]; subst; [exact Hall |].
    cbn [codes_sheet append_code with_codes]. apply Forall_app. split.
    + apply deactivate_Forall.
      * intros value row Hrow. exact Hrow.
      * eapply Forall_impl; [| exact Hall].
        intros r. apply within_rolls_ext. reflexivity.
    + constructor; [| constructor].
      apply within_rolls_ext with (s := s); [reflexivity |].
      unfold within_rolls. cbn [Codes.rolls_used Codes.address new_code_row].
      rewrite max_rolls_lower. rewrite max_rolls_lower in Hroom. lia.
  - destruct E as [E | [row [E _]]]; subst; [exact Hall |].
    cbn [codes_sheet append_referral]. eapply Forall_impl; [| exact Hall].
    intros r Hr. unfold within_rolls in *.
    pose proof (max_rolls_append_referral s row (Codes.address r)). lia.
  - destruct E as [E | E]; subst; [exact Hall |].
    cbn [codes_sheet append_balances]. eapply Forall_impl; [| exact Hall].
    intros r. apply within_rolls_ext. reflexivity.
Qed.

Lemma reachable_within_rolls : forall s,
  reachable s -> Forall (within_rolls s) (codes_sheet s).
Proof.
  intros s Hreach. induction Hreach as [| s s' _ IH Hstep].
  - constructor.
  - exact (step_within_rolls _ _ Hstep IH).
Qed.

Lemma fold_max_ge : forall rest m,
  m <= fold_left (fun m c => Z.max m (uc_rolls_used c)) rest m /\
  forall uc, In uc rest ->
    uc_rolls_used uc <= fold_left (fun m c => Z.max m (uc_rolls_used c)) rest m.
Proof.
  induction rest as [| c rest IH]; intros m; simpl.
  - split; [lia | intros uc []].
  - destruct (IH (Z.max m (uc_rolls_used c))) as [Hm Hrest]. split; [lia |].
    intros uc [Hhere | Hthere].
    + subst. lia.
    + apply Hrest. exact Hthere.
Qed.

Lemma max_rolls_used_ge : forall first rest uc,
  In uc (first :: rest) -> uc_rolls_used uc <= max_rolls_used first rest.
Proof.
  intros first rest uc Hin. unfold max_rolls_used.
  destruct (fold_max_ge rest (uc_rolls_used first)) as [Hfirst Hrest].
  destruct Hin as [Hhere | Hthere].
  - subst. exact Hfirst.
  - apply Hrest. exact Hthere.
Qed.

Lemma user_codes_from_In : forall address codes idx row,
  In row codes -> owned_by address row = true ->
  exists uc, In uc (user_codes_from idx address codes) /\
    uc_rolls_used uc = Codes.rolls_used row.
Proof.
  intros address codes. induction codes as [| r codes IH]; intros idx row Hin Howned.
  - destruct Hin.
  - simpl. destruct Hin as [Hhere | Hthere].
    + subst. rewrite Howned. eexists. split; [left; reflexivity | reflexivity].
    + destruct (IH (S idx) row Hthere Howned) as [uc [Huc Hrolls]].
      exists uc. split; [| exact Hrolls].
      destruct (owned_by address r); [right; exact Huc | exact Huc].
Qed.

End Rolls.

(** C4.  With [max_rolls] 3, or 6 once the address has three events as
    referrer: if some row of the address stores a count of rolls at or above
    [max_rolls] (so the maximum over its rows is), [regenerate_referral_code]
    fails with [NoRollsRemaining] and leaves the service as it was, no row
    deactivated and none added; and in every history of the service each
    stored count is at most the [max_rolls] of its address. *)
Theorem regenerate_respects_max_rolls `{AddressLib} :
  (forall s address,
     max_rolls s address
       = if 3 <=? _count_successful_referrals s address then 6 else 3) /\
  (forall fuel time_s timestamp g s address row,
     enabled s = true ->
     In row (codes_sheet s) ->
     owned_by (PyStr.lower address) row = true ->
     max_rolls s address <= Codes.rolls_used row ->
     exists current,
       regenerate_referral_code fuel time_s timestamp g s address
         = Some (Err (NoRollsRemaining current (max_rolls s address)
                        (_count_successful_referrals s address)), s, g) /\
       max_rolls s address <= current) /\
  (forall s row,
     reachable s -> In row (codes_sheet s) ->
     Codes.rolls_used row <= max_rolls s (Codes.address row)).
Proof.
  split; [| split].
  - intros s address. reflexivity.
  - intros fuel time_s timestamp g s address row Hen Hin Howned Hfull.
    unfold regenerate_referral_code. rewrite Hen. simpl.
    destruct (user_codes_from_In _ _ 0%nat _ Hin Howned) as [uc [Huc Hrolls]].
    destruct (user_codes_from 0 (PyStr.lower address) (codes_sheet s))
      as [| first rest] eqn:Hcodes; [destruct Huc |].
    pose proof (max_rolls_used_ge first rest uc Huc) as Hmax.
    rewrite count_lower. fold (max_rolls s address).
    assert (Hle : max_rolls s address <= max_rolls_used first rest) by lia.
    apply Z.leb_le in Hle. rewrite Hle.
    exists (max_rolls_used first rest). split; [reflexivity |].
    apply Z.leb_le. exact Hle.
  - intros s row Hreach Hin.
    pose proof (reachable_within_rolls s Hreach) as Hall.
    rewrite Forall_forall in Hall. exact (Hall row Hin).
Qed.

(** The third roll was Bob's last: a fourth is refused. *)
Lemma regenerate_respects_max_rolls_witness :
  (exists current,
     regenerate_referral_code 8 0 Demo.NOW (Demo.constant 0) Demo.s_rolled Demo.BOB
       = Some (Err (NoRollsRemaining current (max_rolls Demo.s_rolled Demo.BOB)
                      (_count_successful_referrals Demo.s_rolled Demo.BOB)),
               Demo.s_rolled, Demo.constant 0) /\
     max_rolls Demo.s_rolled Demo.BOB <= current) /\
  max_rolls Demo.s_rolled Demo.BOB = 3.
Proof.
  split.
  - apply (proj1 (proj2 (@regenerate_respects_max_rolls Demo.lib))
             8%nat 0 Demo.NOW (Demo.constant 0) Demo.s_rolled Demo.BOB
             (new_code_row (PyStr.lower Demo.BOB) "JADE-BLAZE-47" "UNCOMMON" 3 Demo.NOW)).
    + reflexivity.
    + vm_compute. right. right. left. reflexivity.
    + reflexivity.
    + vm_compute. discriminate.
  - reflexivity.
Defined.

(** ** The rejection loop *)

Section Generator.

Lemma randint_draw : forall a b g,
  Random.randint a b g
  = (a + Random.tape g (Random.cursor g) mod (b - a + 1), advance g 1).
Proof.
  intros a b g. unfold Random.randint, Random.next, advance.
  rewrite Nat.add_1_r. reflexivity.
Qed.

Lemma sample_common_S : forall fuel a b set g,
  sample_common (S fuel) a b set g
  = if negb (in_set (a + Random.tape g (Random.cursor g) mod (b - a + 1)) set)
    then Some (a + Random.tape g (Random.cursor g) mod (b - a + 1), advance g 1)
    else sample_common fuel a b set (advance g 1).
Proof.
  intros fuel a b set g. cbn [sample_common]. rewrite randint_draw. reflexivity.
Qed.

Lemma advance_advance : forall g j k, advance (advance g j) k = advance g (j + k).
Proof.
  intros g j k. unfold advance. simpl. rewrite Nat.add_assoc. reflexivity.
Qed.

(** What the loop returns is the first accepted draw. *)
Lemma sample_common_result : forall fuel length a b g num g',
  sample_common fuel a b (special_set length) g = Some (num, g') ->
  exists k, (k < fuel)%nat /\
    num = a + Random.tape g (Random.cursor g + k) mod (b - a + 1) /\
    accepted length a b (Random.tape g (Random.cursor g + k)) = true /\
    (forall j, (j < k)%nat ->
       accepted length a b (Random.tape g (Random.cursor g + j)) = false) /\
    g' = advance g (S k).
Proof.
  induction fuel as [| fuel IH]; intros length a b g num g' Hrun.
  - discriminate.
  - rewrite sample_common_S in Hrun.
    destruct (negb (in_set (a + Random.tape g (Random.cursor g) mod (b - a + 1))
                      (special_set length))) eqn:Hacc.
    + inversion Hrun; subst. exists 0%nat. rewrite Nat.add_0_r.
      split; [lia |]. split; [reflexivity |]. split; [exact Hacc |].
      split; [intros j Hj; lia | reflexivity].
    + apply IH in Hrun. destruct Hrun as [k [Hk [Hnum [Hok [Hbefore Hg']]]]].
      exists (S k). cbn [advance Random.tape Random.cursor] in Hnum, Hok, Hbefore.
      replace (Random.cursor g + S k)%nat with (Random.cursor g + 1 + k)%nat by lia.
      split; [lia |]. split; [exact Hnum |]. split; [exact Hok |]. split.
      * intros j Hj. destruct j as [| j].
        -- rewrite Nat.add_0_r. exact Hacc.
        -- replace (Random.cursor g + S j)%nat with (Random.cursor g + 1 + j)%nat by lia.
           apply Hbefore. lia.
      * rewrite Hg', advance_advance. reflexivity.
Qed.

(** The loop returns as soon as the tape offers an accepted draw. *)
Lemma sample_common_returns : forall k length a b g,
  accepted length a b (Random.tape g (Random.cursor g + k)) = true ->
  exists r, Random.tape (snd r) = Random.tape g /\
    forall fuel, (k < fuel)%nat -> sample_common fuel a b (special_set length) g = Some r.
Proof.
  induction k as [| k IH]; intros length a b g Hacc.
  - rewrite Nat.add_0_r in Hacc.
    exists (a + Random.tape g (Random.cursor g) mod (b - a + 1), advance g 1).
    split; [reflexivity |]. intros fuel Hfuel.
    destruct fuel as [| fuel]; [lia |]. rewrite sample_common_S.
    unfold accepted in Hacc. rewrite Hacc. reflexivity.
  - destruct (accepted length a b (Random.tape g (Random.cursor g))) eqn:Hfirst.
    + exists (a + Random.tape g (Random.cursor g) mod (b - a + 1), advance g 1).
      split; [reflexivity |]. intros fuel Hfuel.
      destruct fuel as [| fuel]; [lia |]. rewrite sample_common_S.
      unfold accepted in Hfirst. rewrite Hfirst. reflexivity.
    + destruct (IH length a b (advance g 1)) as [r [Htape Hrun]].
      { simpl. replace (Random.cursor g + 1 + k)%nat with (Random.cursor g + S k)%nat by lia.
        exact Hacc. }
      exists r. split; [exact Htape |]. intros fuel Hfuel.
      destruct fuel as [| fuel]; [lia |]. rewrite sample_common_S.
      unfold accepted in Hfirst. rewrite Hfirst. apply Hrun. lia.
Qed.

Lemma in_set_false : forall num set, in_set num set = false -> ~ In num set.
Proof.
  intros num set. unfold in_set. induction set as [| x set IH]; simpl.
  - intros _ [].
  - intros Hnone. apply orb_false_iff in Hnone. destruct Hnone as [Hx Hset].
    intros [Hhere | Hthere].
    + apply Z.eqb_neq in Hx. apply Hx. symmetry. exact Hhere.
    + exact (IH Hset Hthere).
Qed.

End Generator.

(** C8.  For lengths 2 and 3 (numbers 10..99 and 100..999): when the pattern
    draw selects "common", [_generate_special_number] is the rejection loop
    over [randint] on the full range.  Whatever it returns lies in the range,
    belongs to none of the ultra_rare, rare and uncommon lists of that length,
    and is the first draw that does not, every earlier draw having been
    rejected; and the loop does return once the tape offers such a draw
    within the fuel. *)
Theorem common_numbers_by_rejection : forall fuel length a b g,
  (length = 2 /\ a = 10 /\ b = 99) \/ (length = 3 /\ a = 100 /\ b = 999) ->
  cumulative_pick (fst (Random.random g)) PrimFloat.zero (NUMBER_PATTERN_WEIGHTS length)
    = Some "common" ->
  let g1 := snd (Random.random g) in
  _generate_special_number fuel length g
    = sample_common fuel a b (special_set length) g1 /\
  (forall num g',
     _generate_special_number fuel length g = Some (num, g') ->
     a <= num <= b /\
     ~ In num (special_numbers length "ultra_rare") /\
     ~ In num (special_numbers length "rare") /\
     ~ In num (special_numbers length "uncommon") /\
     exists k, (k < fuel)%nat /\
       num = a + Random.tape g1 (Random.cursor g1 + k) mod (b - a + 1) /\
       forall j, (j < k)%nat ->
         accepted length a b (Random.tape g1 (Random.cursor g1 + j)) = false) /\
  (forall k,
     accepted length a b (Random.tape g1 (Random.cursor g1 + k)) = true ->
     (k < fuel)%nat ->
     exists num g', _generate_special_number fuel length g = Some (num, g')).
Proof.
  intros fuel length a b g Hlen Hpick g1.
  assert (Hloop : _generate_special_number fuel length g
                  = sample_common fuel a b (special_set length) g1).
  { subst g1. destruct Hlen as [[Hl [Ha Hb]] | [Hl [Ha Hb]]]; subst.
    - change (_generate_special_number fuel 2 g) with (patterned_number fuel 2 10 99 g).
      unfold patterned_number.
      destruct (Random.random g) as [rand g0]. cbn [fst snd] in Hpick |- *.
      rewrite Hpick. reflexivity.
    - change (_generate_special_number fuel 3 g) with (patterned_number fuel 3 100 999 g).
      unfold patterned_number.
      destruct (Random.random g) as [rand g0]. cbn [fst snd] in Hpick |- *.
      rewrite Hpick. reflexivity. }
  split; [exact Hloop |]. split.
  - intros num g' Hrun. rewrite Hloop in Hrun.
    apply sample_common_result in Hrun.
    destruct Hrun as [k [Hk [Hnum [Hok [Hbefore _]]]]].
    assert (Hrange : a <= num <= b).
    { rewrite Hnum.
      assert (Hpos : 0 < b - a + 1) by (destruct Hlen as [[_ [? ?]] | [_ [? ?]]]; lia).
      pose proof (Z.mod_pos_bound (Random.tape g1 (Random.cursor g1 + k)) (b - a + 1) Hpos).
      lia. }
    assert (Hout : ~ In num (special_set length)).
    { apply in_set_false. unfold accepted in Hok. rewrite <- Hnum in Hok.
      apply negb_true_iff in Hok. exact Hok. }
    unfold special_set in Hout.
    split; [exact Hrange |].
    split; [intros Hin; apply Hout; apply in_or_app; left; exact Hin |].
    split; [intros Hin; apply Hout; apply in_or_app; right; apply in_or_app; left; exact Hin |].
    split; [intros Hin; apply Hout; apply in_or_app; right; apply in_or_app; right; exact Hin |].
    exists k. split; [exact Hk |]. split; [exact Hnum | exact Hbefore].
  - intros k Hok Hk. rewrite Hloop.
    destruct (sample_common_returns k length a b g1 Hok) as [[num g'] [_ Hrun]].
    exists num, g'. apply Hrun. exact Hk.
Qed.

(** A two-digit draw on the tape that repeats 2^52: the pattern draw is 0.5,
    which selects "common", and the first number drawn, 26, is accepted. *)
Lemma common_numbers_by_rejection_witness :
  _generate_special_number 1 2 (Demo.constant (2 ^ 52))
    = sample_common 1 10 99 (special_set 2) (snd (Random.random (Demo.constant (2 ^ 52)))) /\
  exists num g', _generate_special_number 1 2 (Demo.constant (2 ^ 52)) = Some (num, g').
Proof.
  pose proof (common_numbers_by_rejection 1%nat 2 10 99 (Demo.constant (2 ^ 52))) as Hthm.
  destruct Hthm as [Hloop [_ Hreturns]].
  - left. repeat split.
  - vm_compute. reflexivity.
  - split; [exact Hloop |].
    apply (Hreturns 0%nat); [vm_compute; reflexivity | lia].
Defined.

(** ** Code generation returns *)

Section Termination.

Lemma settles_now : forall (A : Type) (g : Random.state) (r : A * Random.state),
  Random.tape (snd r) = Random.tape g -> settles g (fun _ => Some r).
Proof.
  intros A g r Htape. exists 0%nat, r. split; [exact Htape | reflexivity].
Qed.

Lemma select_rarity_tier_tape : forall g,
  Random.tape (snd (_select_rarity_tier g)) = Random.tape g.
Proof.
  intros g. unfold _select_rarity_tier, Random.random, Random.next.
  destruct (cumulative_pick _ _ _); reflexivity.
Qed.

Lemma select_number_length_tape : forall g,
  Random.tape (snd (_select_number_length g)) = Random.tape g.
Proof.
  intros g. unfold _select_number_length, Random.random, Random.next.
  destruct (cumulative_pick _ _ _); reflexivity.
Qed.

Lemma sample_common_settles : forall length a b g,
  (length = 2 /\ a = 10 /\ b = 99) \/ (length = 3 /\ a = 100 /\ b = 999) ->
  fair (Random.tape g) ->
  settles g (fun fuel => sample_common fuel a b (special_set length) g).
Proof.
  intros length a b g Hlen Hfair.
  destruct (Hfair (Random.cursor g)) as [k [H2 H3]].
  assert (Hacc : accepted length a b (Random.tape g (Random.cursor g + k)) = true).
  { destruct Hlen as [[Hl [Ha Hb]] | [Hl [Ha Hb]]]; subst; assumption. }
  destruct (sample_common_returns k length a b g Hacc) as [r [Htape Hrun]].
  exists (S k), r. split; [exact Htape |]. intros fuel Hfuel. apply Hrun. lia.
Qed.

Lemma patterned_number_settles : forall length a b g,
  (length = 2 /\ a = 10 /\ b = 99) \/ (length = 3 /\ a = 100 /\ b = 999) ->
  fair (Random.tape g) ->
  settles g (fun fuel => patterned_number fuel length a b g).
Proof.
  intros length a b g Hlen Hfair. unfold patterned_number.
  pose proof (eq_refl : Random.tape (snd (Random.random g)) = Random.tape g) as Htape.
  destruct (Random.random g) as [rand g1]. cbn [snd] in Htape.
  destruct (cumulative_pick rand zero (NUMBER_PATTERN_WEIGHTS length)) as [pattern_type |].
  - destruct (String.eqb pattern_type "common").
    + destruct (sample_common_settles length a b g1 Hlen) as [fuel0 [r [Hr Hrun]]].
      { rewrite Htape. exact Hfair. }
      exists fuel0, r. split; [rewrite Hr; exact Htape | exact Hrun].
    + apply settles_now. exact Htape.
  - apply settles_now. exact Htape.
Qed.

Lemma generate_special_number_settles : forall length g,
  fair (Random.tape g) ->
  settles g (fun fuel => _generate_special_number fuel length g).
Proof.
  intros length g Hfair. unfold _generate_special_number.
  destruct (length =? 1).
  - pose proof (eq_refl : Random.tape (snd (Random.random g)) = Random.tape g) as Htape.
    destruct (Random.random g) as [rand g1]. cbn [snd] in Htape.
    destruct (PrimFloat.leb rand 0.30%float); apply settles_now; exact Htape.
  - destruct (length =? 2) eqn:H2.
    + apply Z.eqb_eq in H2. subst.
      apply patterned_number_settles; [left; repeat split | exact Hfair].
    + destruct (length =? 3) eqn:H3.
      * apply Z.eqb_eq in H3. subst.
        apply patterned_number_settles; [right; repeat split | exact Hfair].
      * apply settles_now. reflexivity.
Qed.

Lemma attempt_settles : forall g,
  fair (Random.tape g) -> settles g (fun fuel => attempt fuel g).
Proof.
  intros g Hfair. unfold attempt.
  pose proof (select_rarity_tier_tape g) as H1.
  destruct (_select_rarity_tier g) as [tier_name g1]. cbn [snd] in H1.
  pose proof (eq_refl : Random.tape (snd (Random.choice "" (colors (tier_data tier_name)) g1))
                        = Random.tape g1) as H2.
  destruct (Random.choice "" (colors (tier_data tier_name)) g1) as [color g2]. cbn [snd] in H2.
  pose proof (eq_refl : Random.tape (snd (Random.choice "" (words (tier_data tier_name)) g2))
                        = Random.tape g2) as H3.
  destruct (Random.choice "" (words (tier_data tier_name)) g2) as [word g3]. cbn [snd] in H3.
  pose proof (select_number_length_tape g3) as H4.
  destruct (_select_number_length g3) as [length g4]. cbn [snd] in H4.
  assert (Htape : Random.tape g4 = Random.tape g) by congruence.
  destruct (generate_special_number_settles length g4) as [fuel0 [[number g5] [Hr Hrun]]].
  { rewrite Htape. exact Hfair. }
  eexists fuel0, (_, g5). split.
  - cbn [snd] in Hr |- *. congruence.
  - intros fuel Hfuel. rewrite (Hrun fuel Hfuel). reflexivity.
Qed.

Lemma retry_settles : forall attempts time_s s last g,
  fair (Random.tape g) ->
  settles g (fun fuel => retry attempts fuel time_s s last g).
Proof.
  induction attempts as [| attempts IH]; intros time_s s last g Hfair.
  - apply settles_now. reflexivity.
  - destruct (attempt_settles g Hfair) as [fuel0 [[a g1] [Hr Hrun]]]. cbn [snd] in Hr.
    destruct (negb (PyStr.mem (a_code a) (existing_codes s))) eqn:Hnew.
    + exists fuel0, ((a_code a, a_tier_name a), g1). split; [exact Hr |].
      intros fuel Hfuel. cbn [retry]. rewrite (Hrun fuel Hfuel), Hnew. reflexivity.
    + destruct (IH time_s s a g1) as [fuel1 [r [Hr1 Hrun1]]].
      { rewrite Hr. exact Hfair. }
      exists (Nat.max fuel0 fuel1), r. split; [congruence |].
      intros fuel Hfuel. cbn [retry].
      rewrite (Hrun fuel) by lia. rewrite Hnew. apply Hrun1. lia.
Qed.

Lemma generate_referral_code_settles : forall time_s s g,
  fair (Random.tape g) ->
  settles g (fun fuel => generate_referral_code fuel time_s s g).
Proof.
  intros time_s s g Hfair. unfold generate_referral_code.
  destruct (attempt_settles g Hfair) as [fuel0 [[a g1] [Hr Hrun]]]. cbn [snd] in Hr.
  destruct (negb (PyStr.mem (a_code a) (existing_codes s))) eqn:Hnew.
  - exists fuel0, ((a_code a, a_tier_name a), g1). split; [exact Hr |].
    intros fuel Hfuel. rewrite (Hrun fuel Hfuel), Hnew. reflexivity.
  - destruct (retry_settles (max_attempts - 1) time_s s a g1) as [fuel1 [r [Hr1 Hrun1]]].
    { rewrite Hr. exact Hfair. }
    exists (Nat.max fuel0 fuel1), r. split; [congruence |].
    intros fuel Hfuel. rewrite (Hrun fuel) by lia. rewrite Hnew. apply Hrun1. lia.
Qed.

End Termination.

Lemma find_app_last : forall (A : Type) (p : A -> bool) (l : list A) (x : A),
  find p l = None -> find p (l ++ [x]) = if p x then Some x else None.
Proof.
  intros A p l x. induction l as [| y l IH]; simpl.
  - intros _. reflexivity.
  - destruct (p y); [discriminate | exact IH].
Qed.

Lemma new_code_row_active : forall address code rarity rolls timestamp,
  active_for (PyStr.lower address)
    (new_code_row (PyStr.lower address) code rarity rolls timestamp) = true.
Proof.
  intros address code rarity rolls timestamp. unfold active_for, owned_by, is_active_row.
  cbn [new_code_row Codes.address Codes.is_active].
  rewrite lower_idempotent, String.eqb_refl. reflexivity.
Qed.

(** C5.  On an enabled service: if an active row of the address exists,
    [get_or_create_referral_code] returns the code of the first such row and
    writes nothing, on every call.  Otherwise a call that returns has appended
    exactly one row, for the address, with [rolls_used] 1 and [is_active]
    true, carrying the code it returns; every later call for the address then
    returns that same code and writes nothing; and the call does return, from
    some amount of fuel on, when the entropy tape is fair. *)
Theorem get_or_create_idempotent : forall time_s timestamp g s address,
  enabled s = true ->
  (forall row,
     find (active_for (PyStr.lower address)) (codes_sheet s) = Some row ->
     forall fuel, exists info,
       get_or_create_referral_code fuel time_s timestamp g s address = Some (info, s, g) /\
       CodeInfo.code info = Codes.referral_code row) /\
  (find (active_for (PyStr.lower address)) (codes_sheet s) = None ->
   (forall fuel info s' g',
      get_or_create_referral_code fuel time_s timestamp g s address = Some (info, s', g') ->
      (exists row,
         s' = append_code s row /\
         Codes.address row = PyStr.lower address /\
         Codes.referral_code row = CodeInfo.code info /\
         Codes.rolls_used row = 1 /\
         Codes.is_active row = "true") /\
      forall fuel2 time_s2 timestamp2 g2, exists info2,
        get_or_create_referral_code fuel2 time_s2 timestamp2 g2 s' address
          = Some (info2, s', g2) /\
        CodeInfo.code info2 = CodeInfo.code info) /\
   (fair (Random.tape g) ->
    exists fuel0 info s' g', forall fuel, (fuel0 <= fuel)%nat ->
      get_or_create_referral_code fuel time_s timestamp g s address = Some (info, s', g'))).
Proof.
  intros time_s timestamp g s address Hen. split.
  - intros row Hfind fuel. unfold get_or_create_referral_code.
    rewrite Hen, Hfind. cbn [negb]. eexists. split; reflexivity.
  - intros Hfind. split.
    + intros fuel info s' g' Hrun. unfold get_or_create_referral_code in Hrun.
      rewrite Hen, Hfind in Hrun. cbn [negb] in Hrun.
      destruct (generate_referral_code fuel time_s s g) as [[[code rarity] g1] |];
        [| discriminate].
      inversion Hrun; subst; clear Hrun. split.
      * eexists. split; [reflexivity |]. repeat split.
      * intros fuel2 time_s2 timestamp2 g2. unfold get_or_create_referral_code.
        cbn [enabled append_code codes_sheet]. rewrite Hen. cbn [negb].
        rewrite (find_app_last _ _ _ _ Hfind), new_code_row_active.
        eexists. split; reflexivity.
    + intros Hfair.
      destruct (generate_referral_code_settles time_s s g Hfair)
        as [fuel0 [[[code rarity] g1] [_ Hgen]]].
      eexists fuel0, _, _, _. intros fuel Hfuel. unfold get_or_create_referral_code.
      rewrite Hen, Hfind. cbn [negb]. rewrite (Hgen fuel Hfuel). reflexivity.
Qed.

Lemma constant_fair : fair (Random.tape (Demo.constant (2 ^ 52))).
Proof.
  intros p. exists 0%nat. split; reflexivity.
Qed.

(** Bob, who holds ASH-WAVE-26 in [Demo.s_bob], asks again; and his first
    call, on the fresh service with a fair tape, returns. *)
Lemma get_or_create_idempotent_witness :
  (exists info,
     get_or_create_referral_code 8 0 Demo.NOW (Demo.constant 0) Demo.s_bob Demo.BOB
       = Some (info, Demo.s_bob, Demo.constant 0) /\
     CodeInfo.code info = "ASH-WAVE-26") /\
  (exists fuel0 info s' g', forall fuel, (fuel0 <= fuel)%nat ->
     get_or_create_referral_code fuel 0 Demo.NOW (Demo.constant (2 ^ 52)) initial Demo.BOB
       = Some (info, s', g')).
Proof.
  split.
  - apply (proj1 (get_or_create_idempotent 0 Demo.NOW (Demo.constant 0) Demo.s_bob Demo.BOB
                    eq_refl)
             (new_code_row (PyStr.lower Demo.BOB) "ASH-WAVE-26" "COMMON" 1 Demo.NOW)).
    reflexivity.
  - apply (proj2 (proj2 (get_or_create_idempotent 0 Demo.NOW (Demo.constant (2 ^ 52)) initial
                           Demo.BOB eq_refl) eq_refl)).
    exact constant_fair.
Defined.

(** ** Resolving a code, and the minimum amount *)

Section Minimum.

Context `{AddressLib}.



Lemma update_nth_find_address : forall code value n sheet,
  option_map Codes.address (find (code_matches code) (update_nth n (set_is_active value) sheet))
  = option_map Codes.address (find (code_matches code) sheet).
Proof.
  intros code value n sheet. revert n.
  induction sheet as [| row sheet IH]; intros n.
  - destruct n; reflexivity.
  - destruct n; simpl.
    + unfold code_matches at 1 3. cbn [set_is_active Codes.referral_code].
      destruct (String.eqb _ _); reflexivity.
    + destruct (code_matches code row); [reflexivity | apply IH].
Qed.

Lemma deactivate_find_address : forall code user_codes sheet,
  option_map Codes.address (find (code_matches code) (deactivate user_codes sheet))
  = option_map Codes.address (find (code_matches code) sheet).
Proof.
  intros code user_codes. unfold deactivate.
  induction user_codes as [| uc ucs IH]; intros sheet; simpl.
  - reflexivity.
  - rewrite IH. destruct (uc_is_active uc); [| reflexivity].
    unfold update_cell. simpl. apply update_nth_find_address.
Qed.

End Minimum.


Lemma s_rolled_reachable : @reachable Demo.lib Demo.s_rolled.
Proof.
  assert (Hstep : forall g s address,
            @reachable Demo.lib s -> @reachable Demo.lib (Demo.regenerated g s address)).
  { intros g s address Hreach. unfold Demo.regenerated.
    destruct (regenerate_referral_code 8 0 Demo.NOW g s address) as [[[res s'] g'] |] eqn:E.
    - eapply reachable_step; [exact Hreach |]. eapply step_regenerate. exact E.
    - exact Hreach. }
  unfold Demo.s_rolled. apply Hstep. apply Hstep.
  unfold Demo.s_bob. apply created_reachable. apply reachable_initial.
Qed.





(** ** Reading the leaderboard cache *)

Section Ranking.

Lemma leb_ranked_before : forall e1 e2,
  ByPointsDesc.leb e1 e2 = true <-> ranked_before e1 e2.
Proof.
  intros e1 e2. unfold ByPointsDesc.leb, ranked_before. apply Qle_bool_iff.
Qed.

Lemma leb_transitive : Transitive (fun e1 e2 => is_true (ByPointsDesc.leb e1 e2)).
Proof.
  intros e1 e2 e3 H12 H23. unfold is_true in *.
  apply leb_ranked_before in H12. apply leb_ranked_before in H23.
  apply leb_ranked_before. unfold ranked_before in *.
  eapply Qle_trans; eassumption.
Qed.

Lemma StronglySorted_weaken : forall (A : Type) (R R' : A -> A -> Prop) (l : list A),
  (forall x y, R x y -> R' x y) -> StronglySorted R l -> StronglySorted R' l.
Proof.
  intros A R R' l Himp Hsorted. induction Hsorted as [| x l Hl IH Hx].
  - constructor.
  - constructor; [exact IH |]. eapply Forall_impl; [| exact Hx]. intros y. apply Himp.
Qed.

Lemma StronglySorted_firstn : forall (A : Type) (R : A -> A -> Prop) (n : nat) (l : list A),
  StronglySorted R l -> StronglySorted R (firstn n l).
Proof.
  intros A R n l Hsorted. revert n. induction Hsorted as [| x l Hl IH Hx]; intros n.
  - destruct n; constructor.
  - destruct n; simpl; [constructor |]. constructor; [apply IH |].
    rewrite Forall_forall in *. intros y Hy. apply Hx.
    revert Hy. clear. revert n. induction l as [| z l IHl]; intros n Hy.
    + destruct n; destruct Hy.
    + destruct n; [destruct Hy |]. simpl in Hy. destruct Hy as [Hz | Hy].
      * left; exact Hz.
      * right. exact (IHl n Hy).
Qed.

Lemma StronglySorted_split : forall (A : Type) (R : A -> A -> Prop) (l1 l2 : list A),
  StronglySorted R (l1 ++ l2) ->
  forall x y, In x l1 -> In y l2 -> R x y.
Proof.
  intros A R l1 l2. induction l1 as [| z l1 IH]; intros Hsorted x y Hx Hy.
  - destruct Hx.
  - simpl in Hsorted. inversion Hsorted as [| z' l' Hrest Hz]; subst.
    destruct Hx as [Hhere | Hthere].
    + subst. rewrite Forall_forall in Hz. apply Hz. apply in_or_app. right. exact Hy.
    + exact (IH Hrest x y Hthere Hy).
Qed.

Lemma StronglySorted_as_dict : forall l,
  StronglySorted ranked_before l -> StronglySorted ranked_before (map as_dict l).
Proof.
  intros l Hsorted. induction Hsorted as [| e l Hl IH He].
  - constructor.
  - simpl. constructor; [exact IH |].
    rewrite Forall_forall in *. intros d Hd.
    apply in_map_iff in Hd. destruct Hd as [e' [Hd He']]. subst d.
    exact (He e' He').
Qed.

Lemma sort_ranked : forall l, StronglySorted ranked_before (OrderBy.sort l).
Proof.
  intros l. apply StronglySorted_weaken with (R := fun e1 e2 => is_true (ByPointsDesc.leb e1 e2)).
  - intros e1 e2 Hleb. apply leb_ranked_before. exact Hleb.
  - apply OrderBy.StronglySorted_sort. exact leb_transitive.
Qed.

End Ranking.

(** C9.  [get_leaderboard_cached] answers in one of two shapes.  When the
    cache holds no entry (more generally, none with points), it answers the
    sentinel: [success] false with the message asking for a refresh, which no
    answer with [success] true equals, so it is not a plain empty list.
    Otherwise it answers [success] true with the first [limit] entries of a
    ranking of the entries with points by [total_points], highest first:
    the list returned is in descending order, no longer than [limit], ranks
    at or above every entry with points left out, and is not empty for a
    [limit] of at least one; when every cached entry has points, as the
    refresh leaves them, the ranking is one of the whole cache. *)
Theorem cached_leaderboard_read : forall (db : DatabaseService) (limit : nat),
  (db = [] -> get_total_entries db = 0) /\
  (get_total_entries db = 0 ->
   get_leaderboard_cached db limit
   = {| success := false; message := Some EMPTY_CACHE_MESSAGE;
        leaderboard := []; total_entries := 0; cached := None |} /\
   forall plain, success plain = true -> get_leaderboard_cached db limit <> plain) /\
  (get_total_entries db <> 0 ->
   success (get_leaderboard_cached db limit) = true /\
   total_entries (get_leaderboard_cached db limit) = get_total_entries db /\
   exists ranking,
     Permutation (filter has_points db) ranking /\
     ((forall e, In e db -> has_points e = true) -> Permutation db ranking) /\
     StronglySorted ranked_before ranking /\
     leaderboard (get_leaderboard_cached db limit) = map as_dict (firstn limit ranking) /\
     StronglySorted ranked_before (leaderboard (get_leaderboard_cached db limit)) /\
     (List.length (leaderboard (get_leaderboard_cached db limit)) <= limit)%nat /\
     (forall e1 e2, In e1 (firstn limit ranking) -> In e2 (skipn limit ranking) ->
        ranked_before e1 e2) /\
     ((1 <= limit)%nat -> leaderboard (get_leaderboard_cached db limit) <> [])).
Proof.
  intros db limit. split; [| split].
  - intros Hempty. subst. reflexivity.
  - intros Hzero. unfold get_leaderboard_cached. rewrite Hzero. cbn [Z.eqb].
    split; [reflexivity |]. intros plain Hplain Heq. rewrite <- Heq in Hplain. discriminate.
  - intros Hsome. unfold get_leaderboard_cached.
    destruct (get_total_entries db =? 0) eqn:Hzero.
    { apply Z.eqb_eq in Hzero. contradiction. }
    cbn [success total_entries leaderboard].
    split; [reflexivity |]. split; [reflexivity |].
    exists (OrderBy.sort (filter has_points db)).
    pose proof (OrderBy.Permuted_sort (filter has_points db)) as Hperm.
    pose proof (sort_ranked (filter has_points db)) as Hsorted.
    split; [exact Hperm |]. split.
    { intros Hall. rewrite <- Hperm.
      assert (Hsame : filter has_points db = db).
      { clear - Hall. induction db as [| e db IH]; [reflexivity |]. simpl.
        rewrite (Hall e (or_introl eq_refl)). f_equal. apply IH.
        intros e' He'. apply Hall. right. exact He'. }
      rewrite Hsame. apply Permutation_refl. }
    split; [exact Hsorted |].
    split; [reflexivity |].
    split.
    { unfold db_get_leaderboard, query_leaderboard.
      apply StronglySorted_as_dict. apply StronglySorted_firstn. exact Hsorted. }
    split.
    { unfold db_get_leaderboard, query_leaderboard.
      rewrite length_map. apply firstn_le_length. }
    split.
    { intros e1 e2 H1 H2. apply (StronglySorted_split _ ranked_before
        (firstn limit (OrderBy.sort (filter has_points db)))
        (skipn limit (OrderBy.sort (filter has_points db)))); try assumption.
      rewrite firstn_skipn. exact Hsorted. }
    intros Hlimit Hnil. unfold db_get_leaderboard, query_leaderboard in Hnil.
    apply map_eq_nil in Hnil.
    assert (Hlen : List.length (OrderBy.sort (filter has_points db)) <> 0%nat).
    { rewrite <- (Permutation_length Hperm). unfold get_total_entries in Hsome. lia. }
    destruct (OrderBy.sort (filter has_points db)) as [| e rest]; [contradiction |].
    destruct limit as [| limit]; [lia |]. discriminate.
Qed.

(** The ordering example: of the totals 10, 30 and 20, a read with limit 2
    returns the entries of 30 and 20, in this order; an empty cache answers
    the sentinel. *)
Lemma cached_leaderboard_read_witness :
  success (get_leaderboard_cached Demo.cache 2) = true /\
  map LeaderboardCache.address (leaderboard (get_leaderboard_cached Demo.cache 2))
    = [Demo.BOB; Demo.CAROL] /\
  get_leaderboard_cached [] 2
    = {| success := false; message := Some EMPTY_CACHE_MESSAGE;
         leaderboard := []; total_entries := 0; cached := None |}.
Proof.
  split; [| split].
  - apply (proj2 (proj2 (cached_leaderboard_read Demo.cache 2))).
    vm_compute. discriminate.
  - vm_compute. reflexivity.
  - apply (proj1 (proj2 (cached_leaderboard_read [] 2))). reflexivity.
Defined.

(** ** The rows of a snapshot *)

Section Snapshot.

Context `{AddressLib}.

Lemma evm_queries_fail_total : forall chain checksum_addr,
  evm_queries_fail chain checksum_addr -> evm_total_balance chain checksum_addr = 0.
Proof.
  intros chain checksum_addr [H1 [H2 [H3 H4]]]. unfold evm_total_balance, add_query.
  rewrite H1, H2, H3, H4.
  destruct (usdx_token_addr chain), (eurx_token_addr chain),
    (usdx_staking_available chain), (eurx_staking_available chain); reflexivity.
Qed.

Lemma without_balance_not_positive : forall chain address balance,
  without_balance chain address ->
  queried_balance chain address = Some balance ->
  PyFloat.positive balance = false.
Proof.
  intros chain address balance. unfold without_balance, queried_balance.
  destruct (valid (_validate_address address)); cbn [negb]; [| discriminate].
  destruct (addr_type (_validate_address address)) as [[|] |]; [| | discriminate].
  - intros Hzero Hsome.
    assert (Htotal : evm_total_balance chain (normalized (_validate_address address)) = 0).
    { destruct Hzero as [Hzero | Hfail]; [exact Hzero |].
      apply evm_queries_fail_total. exact Hfail. }
    rewrite Htotal in Hsome. inversion Hsome. reflexivity.
  - destruct (solana_configured chain); cbn [negb]; [| discriminate].
    intros [Hq | [Hq | Hq]] Hsome; rewrite Hq in Hsome; inversion Hsome; reflexivity.
Qed.

Lemma snapshot_row_positive : forall chain today timestamp address row,
  In row (snapshot_row chain today timestamp address) ->
  DailyBalances.referred_address row = address /\
  DailyBalances.date row = today /\
  queried_balance chain address = Some (DailyBalances.usdx_balance row) /\
  PyFloat.positive (DailyBalances.usdx_balance row) = true.
Proof.
  intros chain today timestamp address row. unfold snapshot_row.
  destruct (queried_balance chain address) as [balance |]; [| intros []].
  destruct (PyFloat.positive balance) eqn:Hpos; [| intros []].
  intros [Hrow | []]. subst row. cbn. repeat split. exact Hpos.
Qed.

Lemma unique_In : forall l seen x, In x (unique seen l) -> In x l.
Proof.
  induction l as [| y l IH]; intros seen x Hin.
  - destruct Hin.
  - simpl in Hin. destruct (PyStr.mem y seen).
    + right. exact (IH _ _ Hin).
    + destruct Hin as [Hhere | Hthere]; [left; exact Hhere | right; exact (IH _ _ Hthere)].
Qed.

End Snapshot.

(** C10.  Whatever [snapshot_daily_balances] answers, the rows it appends to
    the daily balances are rows of today for referred addresses of the
    ledger, each with the balance queried for its address, and that balance
    is strictly positive.  An address whose queried balance is zero, or whose
    queries fail (the Solana query raises or has no value; all four EVM
    queries raise), has no row among them. *)
Theorem snapshot_rows_positive `{AddressLib} : forall chain today timestamp s,
  exists rows,
    daily_balances_sheet (snd (snapshot_daily_balances chain today timestamp s))
      = daily_balances_sheet s ++ rows /\
    (forall row, In row rows ->
       PyFloat.positive (DailyBalances.usdx_balance row) = true /\
       DailyBalances.date row = today /\
       In (DailyBalances.referred_address row)
         (map Referrals.referred_address (referrals_sheet s)) /\
       queried_balance chain (DailyBalances.referred_address row)
         = Some (DailyBalances.usdx_balance row)) /\
    (forall address, without_balance chain address ->
     forall row, In row rows -> DailyBalances.referred_address row <> address).
Proof.
  intros chain today timestamp s.
  assert (Hrows : forall row, In row (snapshot_rows chain today timestamp s) ->
            PyFloat.positive (DailyBalances.usdx_balance row) = true /\
            DailyBalances.date row = today /\
            In (DailyBalances.referred_address row)
              (map Referrals.referred_address (referrals_sheet s)) /\
            queried_balance chain (DailyBalances.referred_address row)
              = Some (DailyBalances.usdx_balance row)).
  { intros row Hin. unfold snapshot_rows in Hin. apply in_flat_map in Hin.
    destruct Hin as [address [Haddress Hrow]].
    apply snapshot_row_positive in Hrow. destruct Hrow as [Hwho [Hdate [Hbalance Hpos]]].
    subst address. repeat split; try assumption.
    exact (unique_In _ _ _ Haddress). }
  assert (Habsent : forall rows,
            (forall row, In row rows ->
               PyFloat.positive (DailyBalances.usdx_balance row) = true /\
               DailyBalances.date row = today /\
               In (DailyBalances.referred_address row)
                 (map Referrals.referred_address (referrals_sheet s)) /\
               queried_balance chain (DailyBalances.referred_address row)
                 = Some (DailyBalances.usdx_balance row)) ->
            forall address, without_balance chain address ->
            forall row, In row rows -> DailyBalances.referred_address row <> address).
  { intros rows Hall address Hnone row Hin Hwho.
    destruct (Hall row Hin) as [Hpos [_ [_ Hbalance]]]. rewrite Hwho in Hbalance.
    rewrite (without_balance_not_positive _ _ _ Hnone Hbalance) in Hpos. discriminate. }
  unfold snapshot_daily_balances.
  destruct (negb (enabled s)).
  { exists []. cbn [snd]. rewrite app_nil_r. split; [reflexivity |].
    split; [intros row [] | intros address _ row []]. }
  destruct (existsb _ (daily_balances_sheet s)).
  { exists []. cbn [snd]. rewrite app_nil_r. split; [reflexivity |].
    split; [intros row [] | intros address _ row []]. }
  exists (snapshot_rows chain today timestamp s). cbn [snd append_balances daily_balances_sheet].
  split; [reflexivity |]. split; [exact Hrows | exact (Habsent _ Hrows)].
Qed.

(** The snapshot of [Demo.s_two]: every query about Alice raises, the Solana
    account holds 2.5; one row is appended, for the Solana account. *)
Lemma snapshot_rows_positive_witness :
  @without_balance Demo.lib Demo.chain Demo.ALICE /\
  map DailyBalances.referred_address
    (daily_balances_sheet
       (snd (@snapshot_daily_balances Demo.lib Demo.chain Demo.TODAY Demo.NOW Demo.s_two)))
  = [Demo.TOKEN_PROGRAM] /\
  exists rows,
    daily_balances_sheet
      (snd (@snapshot_daily_balances Demo.lib Demo.chain Demo.TODAY Demo.NOW Demo.s_two))
    = daily_balances_sheet Demo.s_two ++ rows /\
    forall row, In row rows -> DailyBalances.referred_address row <> Demo.ALICE.
Proof.
  assert (Hnone : @without_balance Demo.lib Demo.chain Demo.ALICE).
  { right. repeat split. }
  split; [exact Hnone |]. split; [vm_compute; reflexivity |].
  destruct (@snapshot_rows_positive Demo.lib Demo.chain Demo.TODAY Demo.NOW Demo.s_two)
    as [rows [Happended [_ Habsent]]].
  exists rows. split; [exact Happended |]. exact (Habsent Demo.ALICE Hnone).
Defined.

(** ** One snapshot a day *)

Section SnapshotLedger.

Context `{AddressLib}.

Lemma mem_In : forall x xs, PyStr.mem x xs = true <-> In x xs.
Proof.
  intros x xs. unfold PyStr.mem. rewrite existsb_exists. split.
  - intros [y [Hin Heq]]. apply String.eqb_eq in Heq. subst y. exact Hin.
  - intros Hin. exists x. split; [exact Hin | apply String.eqb_refl].
Qed.

Lemma mem_not_In : forall x xs, PyStr.mem x xs = false <-> ~ In x xs.
Proof.
  intros x xs. rewrite <- mem_In. destruct (PyStr.mem x xs); split; intros H0.
  - discriminate.
  - contradiction H0. reflexivity.
  - discriminate.
  - reflexivity.
Qed.

Lemma unique_fresh : forall l seen x, In x (unique seen l) -> ~ In x seen.
Proof.
  induction l as [| y l IH]; intros seen x Hin.
  - destruct Hin.
  - simpl in Hin. destruct (PyStr.mem y seen) eqn:Hmem.
    + exact (IH _ _ Hin).
    + destruct Hin as [Hhere | Hthere].
      * subst y. apply mem_not_In. exact Hmem.
      * intros Hseen. apply (IH _ _ Hthere). right. exact Hseen.
Qed.

Lemma unique_NoDup : forall l seen, NoDup (unique seen l).
Proof.
  induction l as [| y l IH]; intros seen; simpl.
  - constructor.
  - destruct (PyStr.mem y seen).
    + apply IH.
    + constructor; [| apply IH].
      intros Hin. apply (unique_fresh _ _ _ Hin). left. reflexivity.
Qed.


Lemma unique_NoDup_same : forall l seen,
  NoDup l -> (forall x, In x l -> ~ In x seen) -> unique seen l = l.
Proof.
  induction l as [| y l IH]; intros seen Hnodup Hseen; simpl.
  - reflexivity.
  - inversion Hnodup as [| y' l' Hfresh Hrest]; subst.
    assert (Hmem : PyStr.mem y seen = false).
    { apply mem_not_In. apply Hseen. left. reflexivity. }
    rewrite Hmem. f_equal. apply IH; [exact Hrest |].
    intros x Hin [Hy | Hs].
    + subst x. contradiction.
    + apply (Hseen x); [right; exact Hin | exact Hs].
Qed.

Lemma unique_length : forall l seen, (List.length (unique seen l) <= List.length l)%nat.
Proof.
  induction l as [| y l IH]; intros seen; simpl.
  - lia.
  - destruct (PyStr.mem y seen); simpl.
    + specialize (IH seen). lia.
    + specialize (IH (y :: seen)). lia.
Qed.

(** A snapshot holds at most one row for each address it went through. *)
Lemma snapshot_row_length : forall chain today timestamp address,
  (List.length (snapshot_row chain today timestamp address) <= 1)%nat.
Proof.
  intros chain today timestamp address. unfold snapshot_row.
  destruct (queried_balance chain address) as [balance |]; [| simpl; lia].
  destruct (PyFloat.positive balance); simpl; lia.
Qed.

Lemma flat_map_snapshot_length : forall chain today timestamp addresses,
  (List.length (flat_map (snapshot_row chain today timestamp) addresses)
   <= List.length addresses)%nat.
Proof.
  intros chain today timestamp addresses. induction addresses as [| a l IH]; simpl.
  - lia.
  - rewrite length_app. pose proof (snapshot_row_length chain today timestamp a). lia.
Qed.

Lemma flat_map_snapshot_NoDup : forall chain today timestamp addresses,
  NoDup addresses ->
  NoDup (map balance_key (flat_map (snapshot_row chain today timestamp) addresses)).
Proof.
  intros chain today timestamp addresses Hnodup.
  induction Hnodup as [| a l Hfresh Hrest IH]; simpl.
  - constructor.
  - rewrite map_app. apply NoDup_app.
    + unfold snapshot_row. destruct (queried_balance chain a) as [balance |];
        [| constructor].
      destruct (PyFloat.positive balance); [| constructor].
      simpl. constructor; [intros [] | constructor].
    + exact IH.
    + intros key Hhere Hthere.
      apply in_map_iff in Hhere. destruct Hhere as [row [Hkey Hrow]].
      apply in_map_iff in Hthere. destruct Hthere as [row' [Hkey' Hrow']].
      apply snapshot_row_positive in Hrow. destruct Hrow as [Hwho _].
      apply in_flat_map in Hrow'. destruct Hrow' as [a' [Hin' Hrow']].
      apply snapshot_row_positive in Hrow'. destruct Hrow' as [Hwho' _].
      apply Hfresh. rewrite <- Hkey in Hkey'. unfold balance_key in Hkey'.
      injection Hkey' as Hdate Haddress. rewrite Hwho, Hwho' in Haddress.
      rewrite <- Haddress. exact Hin'.
Qed.

Lemma existsb_date_false : forall today rows,
  existsb (fun row => String.eqb (DailyBalances.date row) today) rows = false ->
  forall row, In row rows -> DailyBalances.date row <> today.
Proof.
  intros today rows Hnone row Hin Hdate.
  assert (Hsome : existsb (fun row => String.eqb (DailyBalances.date row) today) rows = true).
  { apply existsb_exists. exists row. split; [exact Hin |]. apply String.eqb_eq. exact Hdate. }
  rewrite Hnone in Hsome. discriminate.
Qed.

Lemma append_balances_nil : forall s, append_balances s [] = s.
Proof.
  intros [e c r d]. unfold append_balances. simpl. rewrite app_nil_r. reflexivity.
Qed.

(** What a step does to the daily balances. *)
Lemma step_balances : forall s s',
  step s s' ->
  daily_balances_sheet s' = daily_balances_sheet s \/
  exists chain today timestamp,
    daily_balances_sheet s' = daily_balances_sheet s ++ snapshot_rows chain today timestamp s /\
    existsb (fun row => String.eqb (DailyBalances.date row) today)
      (daily_balances_sheet s) = false.
Proof.
  intros s s' Hstep.
  destruct Hstep as
    [fuel time_s timestamp g s address info s' g' E
    | fuel time_s timestamp g s address res s' g' E
    | timestamp s request res s' E
    | chain today timestamp s res s' E].
  - apply get_or_create_effect in E. destruct E as [E | E]; subst; left; reflexivity.
  - apply regenerate_effect in E.
    destruct E as [E | [first [rest [code [rarity [_ [_ E]]]]]]]; subst; left; reflexivity.
  - apply use_referral_code_effect in E.
    destruct E as [E | [row [E _]]]; subst; left; reflexivity.
  - unfold snapshot_daily_balances in E.
    destruct (negb (enabled s)).
    { inversion E; subst. left; reflexivity. }
    destruct (existsb _ (daily_balances_sheet s)) eqn:Hday.
    { inversion E; subst. left; reflexivity. }
    inversion E; subst. right. exists chain, today, timestamp.
    split; [reflexivity | exact Hday].
Qed.

Lemma NoDup_map_lower : forall rows,
  NoDup (map referred_key rows) -> NoDup (map Referrals.referred_address rows).
Proof.
  intros rows. induction rows as [| row rows IH]; simpl; intros Hnodup.
  - constructor.
  - inversion Hnodup as [| k ks Hfresh Hrest]; subst. constructor; [| exact (IH Hrest)].
    intros Hin. apply Hfresh. apply in_map_iff in Hin. destruct Hin as [row' [Heq Hin]].
    apply in_map_iff. exists row'. split; [| exact Hin].
    unfold referred_key. rewrite Heq. reflexivity.
Qed.

End SnapshotLedger.

Lemma s_two_reachable : @reachable Demo.lib Demo.s_two.
Proof.
  unfold Demo.s_two. apply used_reachable. apply s_referred_reachable.
Qed.

Lemma s_snapshot_reachable : @reachable Demo.lib Scenario.s_snapshot.
Proof.
  unfold Scenario.s_snapshot.
  destruct (@snapshot_daily_balances Demo.lib Demo.chain Demo.TODAY Demo.NOW Demo.s_two)
    as [res s'] eqn:E.
  eapply reachable_step; [exact s_two_reachable |]. eapply step_snapshot. exact E.
Qed.

(** X1.  After a snapshot that recorded at least one balance, every further
    snapshot of the same day is refused with "Snapshot already exists" and
    writes nothing, whatever the chain answers by then.  A snapshot that
    recorded no balance leaves the sheet as it was, so that a further snapshot
    of the same day is not refused: it runs again. *)
Theorem snapshot_same_day `{AddressLib} :
  forall chain chain' today timestamp timestamp' s stats s',
  snapshot_daily_balances chain today timestamp s = (Ok stats, s') ->
  (0 < balances_recorded stats ->
   snapshot_daily_balances chain' today timestamp' s' = (Err (SnapshotExists today), s')) /\
  (balances_recorded stats = 0 ->
   s' = s /\
   exists stats', fst (snapshot_daily_balances chain' today timestamp' s') = Ok stats').
Proof.
  intros chain chain' today timestamp timestamp' s stats s'.
  unfold snapshot_daily_balances at 1.
  destruct (negb (enabled s)) eqn:Hen; [discriminate |].
  destruct (existsb _ (daily_balances_sheet s)) eqn:Hday; [discriminate |].
  intros E. inversion E as [[Hstats Hs']]. clear E. cbn [balances_recorded].
  split.
  - intros Hsome. unfold snapshot_daily_balances.
    cbn [enabled append_balances daily_balances_sheet]. rewrite Hen.
    destruct (snapshot_rows chain today timestamp s) as [| row rows] eqn:Hrows.
    { simpl in Hsome. lia. }
    assert (Hrow : DailyBalances.date row = today).
    { assert (Hin : In row (snapshot_rows chain today timestamp s)).
      { rewrite Hrows. left. reflexivity. }
      unfold snapshot_rows in Hin. apply in_flat_map in Hin.
      destruct Hin as [a [_ Hin]]. apply snapshot_row_positive in Hin.
      destruct Hin as [_ [Hdate _]]. exact Hdate. }
    rewrite existsb_app. simpl. rewrite Hrow, String.eqb_refl.
    rewrite orb_true_r. reflexivity.
  - intros Hnone.
    destruct (snapshot_rows chain today timestamp s) as [| row rows] eqn:Hrows.
    2: { simpl in Hnone. lia. }
    rewrite append_balances_nil. split; [reflexivity |].
    unfold snapshot_daily_balances. rewrite Hen, Hday. eexists. reflexivity.
Qed.

(** On [Demo.s_two] the sample chain records the balance of the Solana
    account; asking again that day is refused. *)
Lemma snapshot_same_day_witness :
  @snapshot_daily_balances Demo.lib Demo.chain Demo.TODAY "2025-10-30T18:00:00.000000Z"
    Scenario.s_snapshot
  = (Err (SnapshotExists Demo.TODAY), Scenario.s_snapshot).
Proof.
  refine (proj1 (@snapshot_same_day Demo.lib Demo.chain Demo.chain Demo.TODAY Demo.NOW
                   "2025-10-30T18:00:00.000000Z" Demo.s_two
                   {| st_date := Demo.TODAY; addresses_checked := 2; balances_recorded := 1 |}
                   Scenario.s_snapshot _) _).
  - vm_compute. reflexivity.
  - reflexivity.
Defined.

(** X2.  In every history the daily balances hold at most one row for a day
    and an address. *)
Theorem one_balance_a_day `{AddressLib} : forall s,
  reachable s -> NoDup (map balance_key (daily_balances_sheet s)).
Proof.
  intros s Hreach. induction Hreach as [| s s' _ IH Hstep].
  - constructor.
  - destruct (step_balances _ _ Hstep) as [Hsame | [chain [today [timestamp [Happ Hday]]]]].
    + rewrite Hsame. exact IH.
    + rewrite Happ, map_app. apply NoDup_app.
      * exact IH.
      * unfold snapshot_rows. apply flat_map_snapshot_NoDup. apply unique_NoDup.
      * intros key Hold Hnew.
        apply in_map_iff in Hold. destruct Hold as [row [Hkey Hrow]].
        apply in_map_iff in Hnew. destruct Hnew as [row' [Hkey' Hrow']].
        unfold snapshot_rows in Hrow'. apply in_flat_map in Hrow'.
        destruct Hrow' as [a [_ Hrow']]. apply snapshot_row_positive in Hrow'.
        destruct Hrow' as [_ [Hdate' _]].
        apply (existsb_date_false _ _ Hday row Hrow).
        rewrite <- Hkey in Hkey'. unfold balance_key in Hkey'.
        injection Hkey' as Hdate Haddress. rewrite <- Hdate. exact Hdate'.
Qed.

Lemma one_balance_a_day_witness :
  NoDup (map balance_key (daily_balances_sheet Scenario.s_snapshot)) /\
  map balance_key (daily_balances_sheet Scenario.s_snapshot) = [(Demo.TODAY, Demo.TOKEN_PROGRAM)].
Proof.
  split.
  - exact (@one_balance_a_day Demo.lib Scenario.s_snapshot s_snapshot_reachable).
  - vm_compute. reflexivity.
Defined.

(** X3.  In every history a snapshot that runs checks exactly as many
    addresses as the ledger has referral events (no address is referred
    twice), and records at most one balance for each of them: the number of
    rows it appends is [balances_recorded], which never exceeds
    [addresses_checked]. *)
Theorem snapshot_counts `{AddressLib} : forall chain today timestamp s stats s',
  reachable s ->
  snapshot_daily_balances chain today timestamp s = (Ok stats, s') ->
  st_date stats = today /\
  addresses_checked stats = Z.of_nat (List.length (referrals_sheet s)) /\
  0 <= balances_recorded stats <= addresses_checked stats /\
  Z.of_nat (List.length (daily_balances_sheet s'))
  = Z.of_nat (List.length (daily_balances_sheet s)) + balances_recorded stats.
Proof.
  intros chain today timestamp s stats s' Hreach.
  unfold snapshot_daily_balances.
  destruct (negb (enabled s)); [discriminate |].
  destruct (existsb _ (daily_balances_sheet s)); [discriminate |].
  intros E. inversion E as [[Hstats Hs']]. clear E.
  cbn [st_date addresses_checked balances_recorded append_balances daily_balances_sheet].
  assert (Hunique : unique [] (map Referrals.referred_address (referrals_sheet s))
                    = map Referrals.referred_address (referrals_sheet s)).
  { apply unique_NoDup_same.
    - apply NoDup_map_lower. apply reachable_referred_once. exact Hreach.
    - intros x _ []. }
  split; [reflexivity |]. split.
  { rewrite Hunique, length_map. reflexivity. }
  split.
  - split; [lia |]. apply inj_le. unfold snapshot_rows. apply flat_map_snapshot_length.
  - rewrite length_app. lia.
Qed.

Lemma snapshot_counts_witness :
  addresses_checked
    {| st_date := Demo.TODAY; addresses_checked := 2; balances_recorded := 1 |}
  = Z.of_nat (List.length (referrals_sheet Demo.s_two)).
Proof.
  exact (proj1 (proj2 (@snapshot_counts Demo.lib Demo.chain Demo.TODAY Demo.NOW Demo.s_two
                         _ Scenario.s_snapshot s_two_reachable eq_refl))).
Defined.

(** ** Regeneration *)

Section Regeneration.

Context `{AddressLib}.

Lemma update_nth_app : forall (A : Type) (f : A -> A) (front : list A) (x : A) (back : list A),
  update_nth (List.length front) f (front ++ x :: back) = front ++ f x :: back.
Proof.
  intros A f front x back. induction front as [| y front IH]; simpl.
  - reflexivity.
  - rewrite IH. reflexivity.
Qed.

Lemma deactivate_from : forall address codes front,
  deactivate (user_codes_from (List.length front) address codes) (front ++ codes)
  = front ++ map (retire address) codes.
Proof.
  intros address codes. induction codes as [| row codes IH]; intros front.
  - reflexivity.
  - assert (Hnext : forall row', front ++ row' :: codes = (front ++ [row']) ++ codes).
    { intros row'. rewrite <- app_assoc. reflexivity. }
    assert (Hlen : forall row', S (List.length front) = List.length (front ++ [row'])).
    { intros row'. rewrite length_app. simpl. lia. }
    cbn [user_codes_from map]. unfold retire at 1, active_for.
    destruct (owned_by address row); cbn [andb].
    + unfold deactivate. cbn [fold_left uc_is_active row_index].
      destruct (is_active_row row).
      * unfold update_cell. cbn [Nat.eqb].
        replace (List.length front + 2 - 2)%nat with (List.length front) by lia.
        rewrite update_nth_app.
        rewrite (Hnext (set_is_active "false" row)).
        rewrite (Hlen (set_is_active "false" row)).
        fold (deactivate
                (user_codes_from (List.length (front ++ [set_is_active "false" row]))
                   address codes)
                ((front ++ [set_is_active "false" row]) ++ codes)).
        rewrite IH. rewrite <- app_assoc. reflexivity.
      * rewrite (Hnext row), (Hlen row).
        fold (deactivate (user_codes_from (List.length (front ++ [row])) address codes)
                ((front ++ [row]) ++ codes)).
        rewrite IH. rewrite <- app_assoc. reflexivity.
    + rewrite (Hnext row), (Hlen row). rewrite IH. rewrite <- app_assoc. reflexivity.
Qed.

(** The loop of [update_cell] calls switches off exactly the active rows of
    the address. *)
Lemma deactivate_retire : forall address codes,
  deactivate (user_codes_from 0 address codes) codes = map (retire address) codes.
Proof.
  intros address codes. exact (deactivate_from address codes []).
Qed.

Lemma retire_address : forall address row,
  Codes.address (retire address row) = Codes.address row.
Proof.
  intros address row. unfold retire. destruct (active_for address row); reflexivity.
Qed.

Lemma retire_rolls_used : forall address row,
  Codes.rolls_used (retire address row) = Codes.rolls_used row.
Proof.
  intros address row. unfold retire. destruct (active_for address row); reflexivity.
Qed.

Lemma retire_inactive : forall address row,
  active_for address (retire address row) = false.
Proof.
  intros address row. unfold retire. destruct (active_for address row) eqn:Hactive.
  - unfold active_for, is_active_row. cbn [set_is_active Codes.is_active].
    apply andb_false_r.
  - exact Hactive.
Qed.

Lemma retire_other : forall address key row,
  key <> address -> owned_by key row = true -> retire address row = row.
Proof.
  intros address key row Hneq Howned. unfold retire, active_for.
  destruct (owned_by address row) eqn:Hother; [| reflexivity].
  unfold owned_by in *. apply String.eqb_eq in Howned, Hother.
  contradiction Hneq. rewrite <- Howned. exact Hother.
Qed.

Lemma find_retired : forall address codes,
  find (active_for address) (map (retire address) codes) = None.
Proof.
  intros address codes. induction codes as [| row codes IH]; simpl.
  - reflexivity.
  - rewrite retire_inactive. exact IH.
Qed.

Lemma filter_owned_retire : forall address key codes,
  filter (owned_by key) (map (retire address) codes)
  = map (retire address) (filter (owned_by key) codes).
Proof.
  intros address key codes. induction codes as [| row codes IH]; simpl.
  - reflexivity.
  - assert (Howned : owned_by key (retire address row) = owned_by key row).
    { unfold owned_by. rewrite retire_address. reflexivity. }
    rewrite Howned. destruct (owned_by key row); simpl; rewrite IH; reflexivity.
Qed.

Lemma user_codes_rolls : forall address codes idx,
  map uc_rolls_used (user_codes_from idx address codes)
  = map Codes.rolls_used (filter (owned_by address) codes).
Proof.
  intros address codes. induction codes as [| row codes IH]; intros idx; simpl.
  - reflexivity.
  - destruct (owned_by address row); simpl; rewrite IH; reflexivity.
Qed.

Lemma fold_max_le : forall rest m bound,
  m <= bound ->
  (forall uc, In uc rest -> uc_rolls_used uc <= bound) ->
  fold_left (fun m c => Z.max m (uc_rolls_used c)) rest m <= bound.
Proof.
  induction rest as [| c rest IH]; intros m bound Hm Hrest; simpl.
  - exact Hm.
  - apply IH.
    + pose proof (Hrest c (or_introl eq_refl)). lia.
    + intros uc Hin. apply Hrest. right. exact Hin.
Qed.

(** The largest count of rolls of a non-empty list is the count of one of
    its entries, and no entry exceeds it. *)
Lemma max_rolls_used_attained : forall first rest,
  In (max_rolls_used first rest) (map uc_rolls_used (first :: rest)).
Proof.
  intros first rest. unfold max_rolls_used.
  assert (Hgen : forall rest m,
            fold_left (fun m c => Z.max m (uc_rolls_used c)) rest m = m \/
            In (fold_left (fun m c => Z.max m (uc_rolls_used c)) rest m)
               (map uc_rolls_used rest)).
  { clear first rest. induction rest as [| c rest IH]; intros m; simpl.
    - left. reflexivity.
    - destruct (IH (Z.max m (uc_rolls_used c))) as [Hm | Hin].
      + rewrite Hm. destruct (Z.max_spec m (uc_rolls_used c)) as [[_ Hmax] | [_ Hmax]];
          rewrite Hmax; [right; left; reflexivity | left; reflexivity].
      + right. right. exact Hin. }
  destruct (Hgen rest (uc_rolls_used first)) as [Hm | Hin].
  - left. symmetry. exact Hm.
  - right. exact Hin.
Qed.

Lemma find_and_filter : forall (A : Type) (p q : A -> bool) (l : list A),
  find (fun x => (p x && q x)%bool) l = find q (filter p l).
Proof.
  intros A p q l. induction l as [| x l IH]; simpl.
  - reflexivity.
  - destruct (p x); simpl; [destruct (q x); [reflexivity | exact IH] | exact IH].
Qed.

Lemma filter_and_filter : forall (A : Type) (p q : A -> bool) (l : list A),
  filter (fun x => (p x && q x)%bool) l = filter q (filter p l).
Proof.
  intros A p q l. induction l as [| x l IH]; simpl.
  - reflexivity.
  - destruct (p x); simpl; [destruct (q x); rewrite IH; reflexivity | exact IH].
Qed.

Lemma last_is_active_find : forall earlier last,
  is_active_row last = true ->
  Forall (fun row => is_active_row row = false /\
                     Codes.rolls_used row < Codes.rolls_used last) earlier ->
  find is_active_row (earlier ++ [last]) = Some last /\
  filter is_active_row (earlier ++ [last]) = [last].
Proof.
  intros earlier last Hlast Hearlier. induction Hearlier as [| row earlier [Hrow _] _ IH]; simpl.
  - rewrite Hlast. split; reflexivity.
  - rewrite Hrow. exact IH.
Qed.

(** [get_or_create_referral_code] appends only after its loop found no
    active row of the address. *)
Lemma get_or_create_created : forall fuel time_s timestamp g s address info s' g',
  get_or_create_referral_code fuel time_s timestamp g s address = Some (info, s', g') ->
  s' = s \/
  (find (active_for (PyStr.lower address)) (codes_sheet s) = None /\
   s' = append_code s
          (new_code_row (PyStr.lower address) (CodeInfo.code info) (CodeInfo.rarity info)
             1 timestamp)).
Proof.
  intros fuel time_s timestamp g s address info s' g'.
  unfold get_or_create_referral_code.
  destruct (negb (enabled s)).
  { intros E; inversion E; left; reflexivity. }
  destruct (find _ (codes_sheet s)).
  { intros E; inversion E; left; reflexivity. }
  destruct (generate_referral_code fuel time_s s g) as [[[code rarity] g1] |].
  - intros E; inversion E; subst. right. split; reflexivity.
  - discriminate.
Qed.

Lemma step_last_is_active : forall s s' key,
  step s s' ->
  last_is_active (filter (owned_by key) (codes_sheet s)) ->
  last_is_active (filter (owned_by key) (codes_sheet s')).
Proof.
  intros s s' key Hstep Hinv.
  destruct Hstep as
    [fuel time_s timestamp g s address info s' g' E
    | fuel time_s timestamp g s address res s' g' E
    | timestamp s request res s' E
    | chain today timestamp s res s' E].
  - apply get_or_create_created in E. destruct E as [E | [Hnone E]]; subst; [exact Hinv |].
    cbn [codes_sheet append_code]. rewrite filter_app. cbn [filter].
    unfold owned_by at 2. cbn [new_code_row Codes.address]. rewrite lower_idempotent.
    destruct (String.eqb (PyStr.lower address) key) eqn:Hkey.
    + apply String.eqb_eq in Hkey. subst key.
      destruct Hinv as [Hempty | [earlier [last [Hrows [Hlast Hearlier]]]]].
      * rewrite Hempty. right. exists [], (new_code_row (PyStr.lower address)
                                            (CodeInfo.code info) (CodeInfo.rarity info) 1 timestamp).
        split; [reflexivity |]. split; [reflexivity | constructor].
      * exfalso. unfold active_for in Hnone. rewrite find_and_filter, Hrows in Hnone.
        destruct (last_is_active_find earlier last Hlast Hearlier) as [Hfind _].
        rewrite Hfind in Hnone. discriminate.
    + rewrite app_nil_r. exact Hinv.
  - apply regenerate_effect in E.
    destruct E as [E | [first [rest [code [rarity [Hcodes [_ E]]]]]]]; subst; [exact Hinv |].
    cbn [codes_sheet append_code with_codes]. rewrite <- Hcodes, deactivate_retire.
    rewrite filter_app, filter_owned_retire. cbn [filter].
    unfold owned_by at 2. cbn [new_code_row Codes.address]. rewrite lower_idempotent.
    destruct (String.eqb (PyStr.lower address) key) eqn:Hkey.
    + apply String.eqb_eq in Hkey. subst key. right.
      eexists _, _. split; [reflexivity |]. split; [reflexivity |].
      apply Forall_forall. intros row Hin. apply in_map_iff in Hin.
      destruct Hin as [row0 [Hrow Hin]]. subst row. apply filter_In in Hin.
      destruct Hin as [Hin Howned]. split.
      * pose proof (retire_inactive (PyStr.lower address) row0) as Hoff.
        unfold active_for, owned_by in Hoff. rewrite retire_address in Hoff.
        unfold owned_by in Howned. rewrite Howned in Hoff. exact Hoff.
      * rewrite retire_rolls_used. cbn [new_code_row Codes.rolls_used].
        destruct (user_codes_from_In (PyStr.lower address) (codes_sheet s) 0 row0 Hin Howned)
          as [uc [Huc Hrolls]].
        rewrite Hcodes in Huc. pose proof (max_rolls_used_ge first rest uc Huc). lia.
    + rewrite app_nil_r. apply String.eqb_neq in Hkey.
      assert (Hsame : map (retire (PyStr.lower address)) (filter (owned_by key) (codes_sheet s))
                      = filter (owned_by key) (codes_sheet s)).
      { rewrite <- (map_id (filter (owned_by key) (codes_sheet s))) at 2.
        apply map_ext_in. intros row Hin. apply filter_In in Hin.
        apply (retire_other _ key); [| exact (proj2 Hin)].
        intros Heq. apply Hkey. symmetry. exact Heq. }
      rewrite Hsame. exact Hinv.
  - apply use_referral_code_effect in E.
    destruct E as [E | [row [E _]]]; subst; exact Hinv.
  - apply snapshot_effect in E. destruct E as [E | E]; subst; exact Hinv.
Qed.

Lemma reachable_last_is_active : forall s key,
  reachable s -> last_is_active (filter (owned_by key) (codes_sheet s)).
Proof.
  intros s key Hreach. induction Hreach as [| s s' _ IH Hstep].
  - left. reflexivity.
  - exact (step_last_is_active _ _ key Hstep IH).
Qed.

(** In a history, the active row of an address that holds a code. *)
Lemma reachable_active_row : forall s address first rest,
  reachable s ->
  user_codes_from 0 address (codes_sheet s) = first :: rest ->
  exists row,
    In row (codes_sheet s) /\ owned_by address row = true /\
    find (active_for address) (codes_sheet s) = Some row /\
    filter (active_for address) (codes_sheet s) = [row] /\
    Codes.rolls_used row = max_rolls_used first rest.
Proof.
  intros s address first rest Hreach Hcodes.
  pose proof (user_codes_rolls address (codes_sheet s) 0) as Hrolls.
  rewrite Hcodes in Hrolls.
  destruct (reachable_last_is_active s address Hreach)
    as [Hempty | [earlier [last [Hrows [Hlast Hearlier]]]]].
  { rewrite Hempty in Hrolls. discriminate. }
  destruct (last_is_active_find earlier last Hlast Hearlier) as [Hfind Hfilter].
  assert (Hin : In last (filter (owned_by address) (codes_sheet s))).
  { rewrite Hrows. apply in_or_app. right. left. reflexivity. }
  apply filter_In in Hin. destruct Hin as [Hin Howned].
  exists last. split; [exact Hin |]. split; [exact Howned |].
  split; [unfold active_for; rewrite find_and_filter, Hrows; exact Hfind |].
  split; [unfold active_for; rewrite filter_and_filter, Hrows; exact Hfilter |].
  apply Z.le_antisymm.
  - destruct (user_codes_from_In address (codes_sheet s) 0 last Hin Howned)
      as [uc [Huc Hsame]].
    rewrite Hcodes in Huc. rewrite <- Hsame. apply max_rolls_used_ge. exact Huc.
  - pose proof (max_rolls_used_attained first rest) as Hmax.
    rewrite Hrolls, Hrows, map_app in Hmax. apply in_app_or in Hmax.
    destruct Hmax as [Hearly | [Hhere | []]].
    + apply in_map_iff in Hearly. destruct Hearly as [row [Heq Hrow]].
      rewrite Forall_forall in Hearlier. destruct (Hearlier row Hrow) as [_ Hless]. lia.
    + lia.
Qed.

End Regeneration.

Section CodesHaveDashes.

Lemma has_dash_append : forall x y, has_dash (String.append x (String "-" y)) = true.
Proof.
  intros x y. induction x as [| c x IH]; cbn [String.append has_dash].
  - reflexivity.
  - rewrite IH. apply orb_true_r.
Qed.

Lemma attempt_has_dash : forall fuel g a g',
  attempt fuel g = Some (a, g') -> has_dash (a_code a) = true.
Proof.
  intros fuel g a g'. unfold attempt.
  destruct (_select_rarity_tier g) as [tier_name g1].
  destruct (Random.choice "" (colors (tier_data tier_name)) g1) as [color g2].
  destruct (Random.choice "" (words (tier_data tier_name)) g2) as [word g3].
  destruct (_select_number_length g3) as [length g4].
  destruct (_generate_special_number fuel length g4) as [[number g5] |]; [| discriminate].
  intros E. inversion E; subst. cbn [a_code]. unfold format_code. apply has_dash_append.
Qed.

Lemma retry_has_dash : forall attempts fuel time_s s last g code rarity g',
  retry attempts fuel time_s s last g = Some ((code, rarity), g') -> has_dash code = true.
Proof.
  induction attempts as [| attempts IH]; intros fuel time_s s last g code rarity g'; simpl.
  - intros E. inversion E; subst. unfold fallback_code. apply has_dash_append.
  - destruct (attempt fuel g) as [[a g1] |] eqn:Hattempt; [| discriminate].
    destruct (negb (PyStr.mem (a_code a) (existing_codes s))).
    + intros E. inversion E; subst. exact (attempt_has_dash _ _ _ _ Hattempt).
    + apply IH.
Qed.

Lemma generate_has_dash : forall fuel time_s s g code rarity g',
  generate_referral_code fuel time_s s g = Some ((code, rarity), g') -> has_dash code = true.
Proof.
  intros fuel time_s s g code rarity g'. unfold generate_referral_code.
  destruct (attempt fuel g) as [[a g1] |] eqn:Hattempt; [| discriminate].
  destruct (negb (PyStr.mem (a_code a) (existing_codes s))).
  - intros E. inversion E; subst. exact (attempt_has_dash _ _ _ _ Hattempt).
  - apply retry_has_dash.
Qed.

Lemma has_dash_not_reserved : forall code,
  has_dash code = true -> PyStr.mem code ["DISABLED"; "ERROR"] = false.
Proof.
  intros code Hdash. unfold PyStr.mem. simpl.
  destruct (String.eqb code "DISABLED") eqn:H1.
  { apply String.eqb_eq in H1. subst. discriminate. }
  destruct (String.eqb code "ERROR") eqn:H2.
  { apply String.eqb_eq in H2. subst. discriminate. }
  reflexivity.
Qed.

End CodesHaveDashes.

Section RegenerationTheorems.

Context `{AddressLib}.

Lemma filter_retired : forall address codes,
  filter (active_for address) (map (retire address) codes) = [].
Proof.
  intros address codes. induction codes as [| row codes IH]; simpl.
  - reflexivity.
  - rewrite retire_inactive. exact IH.
Qed.

(** A regeneration that succeeds, spelled out. *)
Lemma regenerate_ok : forall fuel time_s timestamp g s address info s' g',
  regenerate_referral_code fuel time_s timestamp g s address = Some (Ok info, s', g') ->
  exists first rest,
    enabled s = true /\
    user_codes_from 0 (PyStr.lower address) (codes_sheet s) = first :: rest /\
    max_rolls_used first rest < max_rolls s address /\
    CodeInfo.rolls_used info = max_rolls_used first rest + 1 /\
    CodeInfo.rolls_remaining info = max_rolls s address - CodeInfo.rolls_used info /\
    CodeInfo.successful_referrals info = Some (_count_successful_referrals s address) /\
    CodeInfo.unlock_progress info = Some (progress (_count_successful_referrals s address)) /\
    has_dash (CodeInfo.code info) = true /\
    s' = append_code (with_codes s (map (retire (PyStr.lower address)) (codes_sheet s)))
           (new_code_row (PyStr.lower address) (CodeInfo.code info) (CodeInfo.rarity info)
              (CodeInfo.rolls_used info) timestamp).
Proof.
  intros fuel time_s timestamp g s address info s' g'.
  unfold regenerate_referral_code.
  destruct (enabled s) eqn:Hen; cbn [negb]; [| discriminate].
  destruct (user_codes_from 0 (PyStr.lower address) (codes_sheet s)) as [| first rest] eqn:Hcodes;
    [discriminate |].
  rewrite count_lower.
  destruct (max_rolls_of (_count_successful_referrals s address)
              <=? max_rolls_used first rest) eqn:Hmax; [discriminate |].
  destruct (generate_referral_code _ _ _ _) as [[[code rarity] g1] |] eqn:Hgen; [| discriminate].
  intros E. inversion E; subst. clear E.
  cbn [CodeInfo.code CodeInfo.rarity CodeInfo.rolls_used CodeInfo.rolls_remaining
       CodeInfo.successful_referrals CodeInfo.unlock_progress].
  exists first, rest. apply Z.leb_gt in Hmax.
  split; [reflexivity |]. split; [reflexivity |]. split; [exact Hmax |]. split; [reflexivity |].
  split; [reflexivity |]. split; [reflexivity |]. split; [reflexivity |].
  split; [exact (generate_has_dash _ _ _ _ _ _ _ Hgen) |].
  rewrite <- deactivate_retire, Hcodes. reflexivity.
Qed.

End RegenerationTheorems.

(** X4.  A regeneration that succeeds switches off every active row of the
    address, leaves every other cell of the code sheet as it was, and appends
    one row for the address with the new code: that row is then the only
    active row of the address, its [rolls_used] exceeds that of every earlier
    row of the address and stays within [max_rolls], and [rolls_remaining] is
    what is left up to [max_rolls].  The other two sheets are not written. *)
Theorem regenerate_replaces_code `{AddressLib} :
  forall fuel time_s timestamp g s address info s' g',
  regenerate_referral_code fuel time_s timestamp g s address = Some (Ok info, s', g') ->
  let address_lower := PyStr.lower address in
  let new_row :=
    new_code_row address_lower (CodeInfo.code info) (CodeInfo.rarity info)
      (CodeInfo.rolls_used info) timestamp in
  codes_sheet s' = map (retire address_lower) (codes_sheet s) ++ [new_row] /\
  referrals_sheet s' = referrals_sheet s /\
  daily_balances_sheet s' = daily_balances_sheet s /\
  filter (active_for address_lower) (codes_sheet s') = [new_row] /\
  (forall row, In row (codes_sheet s) -> owned_by address_lower row = true ->
     Codes.rolls_used row < CodeInfo.rolls_used info) /\
  CodeInfo.rolls_used info <= max_rolls s address /\
  CodeInfo.rolls_remaining info = max_rolls s address - CodeInfo.rolls_used info.
Proof.
  intros fuel time_s timestamp g s address info s' g' E.
  apply regenerate_ok in E.
  destruct E as [first [rest [_ [Hcodes [Hroom [Hused [Hleft [_ [_ [_ Hs']]]]]]]]]].
  cbv zeta. subst s'. cbn [codes_sheet referrals_sheet daily_balances_sheet append_code with_codes].
  split; [reflexivity |]. split; [reflexivity |]. split; [reflexivity |].
  split.
  { rewrite filter_app, filter_retired. cbn [filter app].
    rewrite new_code_row_active. reflexivity. }
  split.
  { intros row Hin Howned.
    destruct (user_codes_from_In (PyStr.lower address) (codes_sheet s) 0 row Hin Howned)
      as [uc [Huc Hrolls]].
    rewrite Hcodes in Huc. pose proof (max_rolls_used_ge first rest uc Huc). lia. }
  split; [lia | exact Hleft].
Qed.

(** Bob's second code: the first row is switched off, the new row holds
    two rolls and is his only active row. *)
Lemma regenerate_replaces_code_witness :
  exists info s' g',
    @regenerate_referral_code 8 0 Demo.NOW (Demo.constant (2 ^ 53 - 1)) Demo.s_bob Demo.BOB
    = Some (Ok info, s', g') /\
    map Codes.is_active (codes_sheet s') = ["false"; "true"] /\
    map Codes.rolls_used (codes_sheet s') = [1; 2] /\
    filter (active_for (PyStr.lower Demo.BOB)) (codes_sheet s')
    = [new_code_row (PyStr.lower Demo.BOB) (CodeInfo.code info) (CodeInfo.rarity info)
         (CodeInfo.rolls_used info) Demo.NOW].
Proof.
  eexists _, _, _. split; [reflexivity |].
  split; [reflexivity |]. split; [reflexivity |].
  refine (proj1 (proj2 (proj2 (proj2
            (@regenerate_replaces_code Demo.lib 8 0 Demo.NOW (Demo.constant (2 ^ 53 - 1))
               Demo.s_bob Demo.BOB _ _ _ _))))).
  reflexivity.
Defined.

(** X5.  After [POST /{address}/regenerate] has succeeded, [GET
    /{address}/code] answers with the very data of that response (the new
    code, its rarity, both roll counts, the referral count and progress, the
    share link) and writes nothing. *)
Theorem regenerate_then_get_code `{AddressLib} :
  forall fuel fuel' time_s time_s' timestamp timestamp' g g2 s address data s' g',
  Router.regenerate_referral_code fuel time_s timestamp g s address = Some (Ok data, s', g') ->
  Router.get_referral_code fuel' time_s' timestamp' g2 s' address = Some (Ok data, s', g2).
Proof.
  intros fuel fuel' time_s time_s' timestamp timestamp' g g2 s address data s' g'.
  unfold Router.regenerate_referral_code, Router.get_referral_code.
  destruct (is_address address); cbn [negb]; [| discriminate].
  destruct (regenerate_referral_code fuel time_s timestamp g s (to_checksum_address address))
    as [[[[e | info] s1] g1] |] eqn:E; try discriminate.
  intros Hdata. inversion Hdata; subst. clear Hdata.
  apply regenerate_ok in E.
  destruct E as [first [rest [Hen [Hcodes [Hroom [Hused [Hleft [Hrefs [Hprogress [Hdash Hs']]]]]]]]]].
  set (a := to_checksum_address address) in *.
  unfold get_or_create_referral_code. subst s'.
  cbn [enabled codes_sheet append_code with_codes]. rewrite Hen. cbn [negb].
  rewrite (find_app_last _ _ _ _ (find_retired (PyStr.lower a) (codes_sheet s))).
  rewrite new_code_row_active.
  cbn [new_code_row Codes.referral_code Codes.rarity Codes.rolls_used CodeInfo.code].
  rewrite (has_dash_not_reserved _ Hdash).
  do 3 f_equal. unfold Router.code_data.
  cbn [CodeInfo.code CodeInfo.rarity CodeInfo.rolls_used CodeInfo.rolls_remaining
       CodeInfo.successful_referrals CodeInfo.unlock_progress].
  assert (Hcount : _count_successful_referrals
                     (append_code (with_codes s (map (retire (PyStr.lower a)) (codes_sheet s)))
                        (new_code_row (PyStr.lower a) (CodeInfo.code info) (CodeInfo.rarity info)
                           (CodeInfo.rolls_used info) timestamp)) (PyStr.lower a)
                   = _count_successful_referrals s a).
  { rewrite count_lower. reflexivity. }
  rewrite Hcount, Hrefs, Hprogress, Hleft. fold (max_rolls s a).
  replace (Z.max 0 (max_rolls s a - CodeInfo.rolls_used info))
    with (max_rolls s a - CodeInfo.rolls_used info) by lia.
  reflexivity.
Qed.

(** Bob regenerates through the endpoint and asks for his code. *)
Lemma regenerate_then_get_code_witness :
  exists data s' g',
    @Router.regenerate_referral_code Demo.lib 8 0 Demo.NOW (Demo.constant (2 ^ 53 - 1))
      Demo.s_bob Demo.BOB = Some (Ok data, s', g') /\
    Router.rolls_used data = 2 /\
    @Router.get_referral_code Demo.lib 0 0 Demo.NOW (Demo.constant 0) s' Demo.BOB
    = Some (Ok data, s', Demo.constant 0).
Proof.
  eexists _, _, _. split; [reflexivity |]. split; [reflexivity |].
  refine (@regenerate_then_get_code Demo.lib 8 0 0 0 Demo.NOW Demo.NOW
            (Demo.constant (2 ^ 53 - 1)) (Demo.constant 0) Demo.s_bob Demo.BOB _ _ _ _).
  reflexivity.
Defined.

(** X6.  In every history, an address that holds any row of the code sheet
    has exactly one active row; it is the row [get_or_create_referral_code]
    reads, and its [rolls_used] is the largest among the rows of the address,
    the count [regenerate_referral_code] compares with [max_rolls]. *)
Theorem one_active_code `{AddressLib} : forall s address first rest,
  reachable s ->
  user_codes_from 0 (PyStr.lower address) (codes_sheet s) = first :: rest ->
  exists row,
    filter (active_for (PyStr.lower address)) (codes_sheet s) = [row] /\
    find (active_for (PyStr.lower address)) (codes_sheet s) = Some row /\
    Codes.rolls_used row = max_rolls_used first rest /\
    forall other, In other (codes_sheet s) ->
      owned_by (PyStr.lower address) other = true ->
      Codes.rolls_used other <= Codes.rolls_used row.
Proof.
  intros s address first rest Hreach Hcodes.
  destruct (reachable_active_row s (PyStr.lower address) first rest Hreach Hcodes)
    as [row [_ [_ [Hfind [Hfilter Hrolls]]]]].
  exists row. split; [exact Hfilter |]. split; [exact Hfind |]. split; [exact Hrolls |].
  intros other Hin Howned.
  destruct (user_codes_from_In (PyStr.lower address) (codes_sheet s) 0 other Hin Howned)
    as [uc [Huc Hsame]].
  rewrite Hcodes in Huc. rewrite Hrolls, <- Hsame. apply max_rolls_used_ge. exact Huc.
Qed.

(** After two regenerations Bob holds three rows; the third is the active
    one. *)
Lemma one_active_code_witness :
  exists row,
    filter (active_for (PyStr.lower Demo.BOB)) (codes_sheet Demo.s_rolled) = [row] /\
    find (active_for (PyStr.lower Demo.BOB)) (codes_sheet Demo.s_rolled) = Some row /\
    Codes.rolls_used row = 3 /\
    forall other, In other (codes_sheet Demo.s_rolled) ->
      owned_by (PyStr.lower Demo.BOB) other = true ->
      Codes.rolls_used other <= Codes.rolls_used row.
Proof.
  refine (@one_active_code Demo.lib Demo.s_rolled Demo.BOB
            {| row_index := 2; uc_rolls_used := 1; uc_is_active := false |}
            [ {| row_index := 3; uc_rolls_used := 2; uc_is_active := false |};
              {| row_index := 4; uc_rolls_used := 3; uc_is_active := true |} ]
            s_rolled_reachable _).
  reflexivity.
Defined.

(** X7.  In every history, for an address that holds a code,
    [get_or_create_referral_code] writes nothing and reports counts that add
    up: [rolls_used + rolls_remaining = max_rolls].  It reports no roll
    remaining exactly when [regenerate_referral_code] refuses with "No rolls
    remaining", and the refusal quotes the same two numbers. *)
Theorem rolls_add_up `{AddressLib} :
  forall fuel time_s timestamp g s address first rest,
  reachable s ->
  user_codes_from 0 (PyStr.lower address) (codes_sheet s) = first :: rest ->
  exists info,
    get_or_create_referral_code fuel time_s timestamp g s address = Some (info, s, g) /\
    CodeInfo.rolls_used info + CodeInfo.rolls_remaining info = max_rolls s address /\
    0 <= CodeInfo.rolls_remaining info /\
    (CodeInfo.rolls_remaining info = 0 <->
     regenerate_referral_code fuel time_s timestamp g s address
     = Some (Err (NoRollsRemaining (CodeInfo.rolls_used info) (max_rolls s address)
                    (_count_successful_referrals s address)), s, g)).
Proof.
  intros fuel time_s timestamp g s address first rest Hreach Hcodes.
  destruct (reachable_active_row s (PyStr.lower address) first rest Hreach Hcodes)
    as [row [Hin [Howned [Hfind [_ Hrolls]]]]].
  pose proof (reachable_within_rolls s Hreach) as Hall.
  rewrite Forall_forall in Hall. pose proof (Hall row Hin) as Hwithin.
  unfold within_rolls in Hwithin.
  assert (Hmax : max_rolls s (Codes.address row) = max_rolls s address).
  { rewrite <- (max_rolls_lower s (Codes.address row)).
    unfold owned_by in Howned. apply String.eqb_eq in Howned. rewrite Howned.
    apply max_rolls_lower. }
  rewrite Hmax in Hwithin.
  unfold get_or_create_referral_code, regenerate_referral_code.
  rewrite (reachable_enabled s Hreach). cbn [negb]. rewrite Hfind, Hcodes, count_lower.
  fold (max_rolls s address). eexists. split; [reflexivity |].
  cbn [CodeInfo.rolls_used CodeInfo.rolls_remaining]. rewrite <- Hrolls.
  split; [lia |]. split; [lia |].
  destruct (max_rolls s address <=? Codes.rolls_used row) eqn:Hfull.
  - apply Z.leb_le in Hfull. split; [reflexivity | lia].
  - apply Z.leb_gt in Hfull. split; [lia |].
    intros E. destruct (generate_referral_code _ _ _ _) as [[[code rarity] g1] |];
      discriminate E.
Qed.

(** Bob has used his three rolls. *)
Lemma rolls_add_up_witness :
  exists info,
    @get_or_create_referral_code 0 0 Demo.NOW (Demo.constant 0) Demo.s_rolled Demo.BOB
    = Some (info, Demo.s_rolled, Demo.constant 0) /\
    CodeInfo.rolls_used info + CodeInfo.rolls_remaining info = max_rolls Demo.s_rolled Demo.BOB /\
    0 <= CodeInfo.rolls_remaining info /\
    (CodeInfo.rolls_remaining info = 0 <->
     regenerate_referral_code 0 0 Demo.NOW (Demo.constant 0) Demo.s_rolled Demo.BOB
     = Some (Err (NoRollsRemaining (CodeInfo.rolls_used info) (max_rolls Demo.s_rolled Demo.BOB)
                    (_count_successful_referrals Demo.s_rolled Demo.BOB)),
             Demo.s_rolled, Demo.constant 0)).
Proof.
  refine (@rolls_add_up Demo.lib 0 0 Demo.NOW (Demo.constant 0) Demo.s_rolled Demo.BOB
            {| row_index := 2; uc_rolls_used := 1; uc_is_active := false |}
            [ {| row_index := 3; uc_rolls_used := 2; uc_is_active := false |};
              {| row_index := 4; uc_rolls_used := 3; uc_is_active := true |} ]
            s_rolled_reachable _).
  reflexivity.
Defined.

(** ** The shape of a generated code *)

Section CodeFormat.

Lemma cumulative_pick_In : forall (K : Type) (rand : float) (items : list (K * float))
    (cumulative : float) (key : K),
  cumulative_pick rand cumulative items = Some key -> In key (map fst items).
Proof.
  intros K rand items. induction items as [| [k w] items IH]; intros cumulative key; simpl.
  - discriminate.
  - destruct (PrimFloat.leb rand (PrimFloat.add cumulative w)).
    + intros E. inversion E. left. reflexivity.
    + intros E. right. exact (IH _ _ E).
Qed.

Lemma choice_Forall : forall (A : Type) (P : A -> Prop) (default : A) (seq : list A)
    (g : Random.state),
  seq <> [] -> Forall P seq -> P (fst (Random.choice default seq g)).
Proof.
  intros A P default seq g Hseq Hall. unfold Random.choice, Random.next. cbn [fst].
  rewrite Forall_forall in Hall. apply Hall. apply nth_In.
  assert (Hlen : 0 < Z.of_nat (List.length seq)).
  { destruct seq; [contradiction Hseq; reflexivity | simpl; lia]. }
  pose proof (Z.mod_pos_bound (Random.tape g (Random.cursor g)) _ Hlen). lia.
Qed.

Lemma select_rarity_tier_key : forall g,
  In (fst (_select_rarity_tier g)) (map fst RARITY_TIERS).
Proof.
  intros g. unfold _select_rarity_tier. destruct (Random.random g) as [rand g1].
  destruct (cumulative_pick rand PrimFloat.zero _) as [tier_name |] eqn:Hpick; cbn [fst].
  - apply cumulative_pick_In in Hpick. rewrite map_map in Hpick. exact Hpick.
  - simpl. do 5 right. left. reflexivity.
Qed.

Lemma select_number_length_range : forall g,
  In (fst (_select_number_length g)) [1; 2; 3].
Proof.
  intros g. unfold _select_number_length. destruct (Random.random g) as [rand g1].
  destruct (cumulative_pick rand PrimFloat.zero LENGTH_WEIGHTS) as [length |] eqn:Hpick;
    cbn [fst].
  - apply cumulative_pick_In in Hpick. exact Hpick.
  - right. left. reflexivity.
Qed.

Lemma patterned_number_range : forall fuel length a b g number g',
  a <= b ->
  (forall pattern_type, In pattern_type (map fst (NUMBER_PATTERN_WEIGHTS length)) ->
     pattern_type <> "common" ->
     special_numbers length pattern_type <> [] /\
     Forall (fun n => a <= n <= b) (special_numbers length pattern_type)) ->
  patterned_number fuel length a b g = Some (number, g') ->
  a <= number <= b.
Proof.
  intros fuel length a b g number g' Hab Hspecial. unfold patterned_number.
  destruct (Random.random g) as [rand g1].
  assert (Hdraw : forall raw, a <= a + raw mod (b - a + 1) <= b).
  { intros raw. pose proof (Z.mod_pos_bound raw (b - a + 1)). lia. }
  destruct (cumulative_pick rand PrimFloat.zero (NUMBER_PATTERN_WEIGHTS length))
    as [pattern_type |] eqn:Hpick.
  - apply cumulative_pick_In in Hpick.
    destruct (String.eqb pattern_type "common") eqn:Hcommon.
    + intros Hrun. apply sample_common_result in Hrun.
      destruct Hrun as [k [_ [Hnum _]]]. subst number. apply Hdraw.
    + apply String.eqb_neq in Hcommon.
      destruct (Hspecial pattern_type Hpick Hcommon) as [Hsome Hall].
      pose proof (choice_Forall Z (fun n => a <= n <= b) 0 _ g1 Hsome Hall) as Hin.
      destruct (Random.choice 0 (special_numbers length pattern_type) g1) as [n g2].
      intros E. inversion E; subst. exact Hin.
  - rewrite randint_draw. intros E. inversion E; subst. apply Hdraw.
Qed.

(** The numbers of each length: one digit, or exactly two, or exactly three. *)
Lemma generate_special_number_range : forall fuel length g number g',
  In length [1; 2; 3] ->
  _generate_special_number fuel length g = Some (number, g') ->
  (length = 1 /\ 0 <= number <= 9) \/
  (length = 2 /\ 10 <= number <= 99) \/
  (length = 3 /\ 100 <= number <= 999).
Proof.
  intros fuel length g number g' Hlength.
  destruct Hlength as [Hl | [Hl | [Hl | []]]]; subst length.
  - intros Hrun. left. split; [reflexivity |].
    unfold _generate_special_number in Hrun. cbn [Z.eqb Pos.eqb] in Hrun.
    destruct (Random.random g) as [rand g1].
    destruct (PrimFloat.leb rand 0.30%float).
    + pose proof (choice_Forall Z (fun n => 0 <= n <= 9) 0 (special_numbers 1 "lucky") g1)
        as Hin.
      destruct (Random.choice 0 (special_numbers 1 "lucky") g1) as [n g2].
      inversion Hrun; subst. apply Hin; [discriminate |].
      repeat constructor; lia.
    + pose proof (choice_Forall Z (fun n => 0 <= n <= 9) 0 (special_numbers 1 "regular") g1)
        as Hin.
      destruct (Random.choice 0 (special_numbers 1 "regular") g1) as [n g2].
      inversion Hrun; subst. apply Hin; [discriminate |].
      repeat constructor; lia.
  - intros Hrun. right. left. split; [reflexivity |].
    change (_generate_special_number fuel 2 g) with (patterned_number fuel 2 10 99 g) in Hrun.
    assert (Hab : 10 <= 99) by lia.
    apply (patterned_number_range fuel 2 10 99 g number g' Hab); [| exact Hrun].
    intros pattern_type Hin Hcommon.
    destruct Hin as [Hp | [Hp | [Hp | [Hp | []]]]]; subst pattern_type;
      try (contradiction Hcommon; reflexivity);
      (split; [discriminate | repeat constructor; lia]).
  - intros Hrun. right. right. split; [reflexivity |].
    change (_generate_special_number fuel 3 g) with (patterned_number fuel 3 100 999 g) in Hrun.
    assert (Hab : 100 <= 999) by lia.
    apply (patterned_number_range fuel 3 100 999 g number g' Hab); [| exact Hrun].
    intros pattern_type Hin Hcommon.
    destruct Hin as [Hp | [Hp | [Hp | [Hp | []]]]]; subst pattern_type;
      try (contradiction Hcommon; reflexivity);
      (split; [discriminate | repeat constructor; lia]).
Qed.

(** A check that holds on every integer of a range holds on each of them. *)
Lemma range_forallb : forall (check : Z -> bool) (lo hi : Z),
  forallb check (map (fun k => lo + Z.of_nat k) (seq 0 (Z.to_nat (hi - lo + 1)))) = true ->
  forall n, lo <= n <= hi -> check n = true.
Proof.
  intros check lo hi Hall n Hn. rewrite forallb_forall in Hall. apply Hall.
  apply in_map_iff. exists (Z.to_nat (n - lo)). split; [lia |].
  apply in_seq. lia.
Qed.

(** The suffix of a code is the number as written, and has as many digits
    as the drawn length. *)
Lemma suffix_digits : forall color word length number,
  (length = 1 /\ 0 <= number <= 9) \/
  (length = 2 /\ 10 <= number <= 99) \/
  (length = 3 /\ 100 <= number <= 999) ->
  format_code color word length number
  = String.append color
      (String.append "-" (String.append word (String.append "-" (PyStr.of_int number)))) /\
  String.length (PyStr.of_int number) = Z.to_nat length.
Proof.
  intros color word length number Hcases. unfold format_code.
  destruct Hcases as [[Hl Hn] | [[Hl Hn] | [Hl Hn]]]; subst length; cbn [Z.eqb Pos.eqb].
  - split; [reflexivity |].
    pose proof (range_forallb
                  (fun n => Nat.eqb (String.length (PyStr.of_int n)) 1) 0 9
                  ltac:(vm_compute; reflexivity) number Hn) as Hcheck.
    apply Nat.eqb_eq in Hcheck. exact Hcheck.
  - pose proof (range_forallb
                  (fun n => (String.eqb (PyStr.zfill 2 n) (PyStr.of_int n)
                             && Nat.eqb (String.length (PyStr.of_int n)) 2)%bool) 10 99
                  ltac:(vm_compute; reflexivity) number Hn) as Hcheck.
    apply andb_true_iff in Hcheck. destruct Hcheck as [Hfill Hlen].
    apply String.eqb_eq in Hfill. apply Nat.eqb_eq in Hlen.
    rewrite Hfill. split; [reflexivity | exact Hlen].
  - pose proof (range_forallb
                  (fun n => (String.eqb (PyStr.zfill 3 n) (PyStr.of_int n)
                             && Nat.eqb (String.length (PyStr.of_int n)) 3)%bool) 100 999
                  ltac:(vm_compute; reflexivity) number Hn) as Hcheck.
    apply andb_true_iff in Hcheck. destruct Hcheck as [Hfill Hlen].
    apply String.eqb_eq in Hfill. apply Nat.eqb_eq in Hlen.
    rewrite Hfill. split; [reflexivity | exact Hlen].
Qed.

Lemma tier_lists : forall tier_name,
  In tier_name (map fst RARITY_TIERS) ->
  lookup tier_name RARITY_TIERS = Some (tier_data tier_name) /\
  colors (tier_data tier_name) <> [] /\ words (tier_data tier_name) <> [].
Proof.
  intros tier_name Hin.
  destruct Hin as [Hk | [Hk | [Hk | [Hk | [Hk | [Hk | []]]]]]]; subst tier_name;
    (split; [reflexivity | split; discriminate]).
Qed.

End CodeFormat.

(** X8.  Every pass of the generation loop composes COLOR-WORD-N: the tier is
    one of the six rarity tiers, the color and the word are taken from that
    tier's lists, and N is a number of one digit, or of exactly two (10 to
    99), or of exactly three (100 to 999), so that the zero padding of the
    format never adds a digit. *)
Theorem attempt_format : forall fuel g a g',
  attempt fuel g = Some (a, g') ->
  exists tier length number,
    lookup (a_tier_name a) RARITY_TIERS = Some tier /\
    In (a_color a) (colors tier) /\
    In (a_word a) (words tier) /\
    ((length = 1 /\ 0 <= number <= 9) \/
     (length = 2 /\ 10 <= number <= 99) \/
     (length = 3 /\ 100 <= number <= 999)) /\
    String.length (PyStr.of_int number) = Z.to_nat length /\
    a_code a
    = String.append (a_color a)
        (String.append "-"
           (String.append (a_word a) (String.append "-" (PyStr.of_int number)))).
Proof.
  intros fuel g a g'. unfold attempt.
  pose proof (select_rarity_tier_key g) as Htier.
  destruct (_select_rarity_tier g) as [tier_name g1]. cbn [fst] in Htier.
  destruct (tier_lists tier_name Htier) as [Hlookup [Hcolors Hwords]].
  pose proof (choice_Forall string (fun c => In c (colors (tier_data tier_name))) ""
                (colors (tier_data tier_name)) g1 Hcolors
                (proj2 (Forall_forall _ _) (fun c Hc => Hc))) as Hcolor.
  destruct (Random.choice "" (colors (tier_data tier_name)) g1) as [color g2].
  pose proof (choice_Forall string (fun w => In w (words (tier_data tier_name))) ""
                (words (tier_data tier_name)) g2 Hwords
                (proj2 (Forall_forall _ _) (fun w Hw => Hw))) as Hword.
  destruct (Random.choice "" (words (tier_data tier_name)) g2) as [word g3].
  pose proof (select_number_length_range g3) as Hlength.
  destruct (_select_number_length g3) as [length g4]. cbn [fst] in Hcolor, Hword, Hlength.
  destruct (_generate_special_number fuel length g4) as [[number g5] |] eqn:Hnumber;
    [| discriminate].
  intros E. inversion E; subst. clear E. cbn [a_tier_name a_color a_word a_code].
  pose proof (generate_special_number_range _ _ _ _ _ Hlength Hnumber) as Hrange.
  destruct (suffix_digits color word length number Hrange) as [Hcode Hdigits].
  exists (tier_data tier_name), length, number.
  split; [exact Hlookup |]. split; [exact Hcolor |]. split; [exact Hword |].
  split; [exact Hrange |]. split; [exact Hdigits | exact Hcode].
Qed.

(** The pass on the tape that repeats 2^52: ASH-WAVE-26, a common code. *)
Lemma attempt_format_witness :
  exists a g',
    attempt 8 (Demo.constant (2 ^ 52)) = Some (a, g') /\
    a_code a = "ASH-WAVE-26" /\
    exists tier length number,
      lookup (a_tier_name a) RARITY_TIERS = Some tier /\
      In (a_color a) (colors tier) /\
      In (a_word a) (words tier) /\
      ((length = 1 /\ 0 <= number <= 9) \/
       (length = 2 /\ 10 <= number <= 99) \/
       (length = 3 /\ 100 <= number <= 999)) /\
      String.length (PyStr.of_int number) = Z.to_nat length /\
      a_code a
      = String.append (a_color a)
          (String.append "-"
             (String.append (a_word a) (String.append "-" (PyStr.of_int number)))).
Proof.
  eexists _, _. split; [reflexivity |]. split; [reflexivity |].
  refine (attempt_format 8 (Demo.constant (2 ^ 52)) _ _ _). reflexivity.
Defined.

(** X9.  The code [generate_referral_code] returns comes from a pass of the
    loop, with the rarity of that pass: either it is the code of the pass and
    no row of the sheet carries it, or the code of the pass was taken and the
    result is the fallback built from the color and the word of that pass and
    the last two digits of the clock, which is not compared with the sheet. *)
Theorem generated_code_fresh : forall fuel time_s s g code rarity g',
  generate_referral_code fuel time_s s g = Some ((code, rarity), g') ->
  exists a g0 g1,
    attempt fuel g0 = Some (a, g1) /\
    rarity = a_tier_name a /\
    ((code = a_code a /\ PyStr.mem code (existing_codes s) = false) \/
     (code = fallback_code a time_s /\ PyStr.mem (a_code a) (existing_codes s) = true)).
Proof.
  intros fuel time_s s g code rarity g'. unfold generate_referral_code.
  destruct (attempt fuel g) as [[a g1] |] eqn:Hattempt; [| discriminate].
  destruct (PyStr.mem (a_code a) (existing_codes s)) eqn:Htaken; cbn [negb].
  2: { intros E. inversion E; subst. exists a, g, g'.
       split; [exact Hattempt |]. split; [reflexivity |]. left. split; [reflexivity | exact Htaken]. }
  generalize (max_attempts - 1)%nat. intros attempts.
  revert a g g1 Hattempt Htaken.
  induction attempts as [| attempts IH]; intros a g g1 Hattempt Htaken; cbn [retry].
  - intros E. inversion E; subst. exists a, g, g'.
    split; [exact Hattempt |]. split; [reflexivity |]. right. split; [reflexivity | exact Htaken].
  - destruct (attempt fuel g1) as [[a2 g2] |] eqn:Hattempt2; [| discriminate].
    destruct (PyStr.mem (a_code a2) (existing_codes s)) eqn:Htaken2; cbn [negb].
    + apply (IH a2 g1 g2 Hattempt2 Htaken2).
    + intros E. inversion E; subst. exists a2, g1, g'.
      split; [exact Hattempt2 |]. split; [reflexivity |]. left.
      split; [reflexivity | exact Htaken2].
Qed.

(** Carol's code on the repeating tape: every pass gives Bob's ASH-WAVE-26,
    and the clock ends in 26. *)
Lemma generated_code_fresh_witness :
  exists a g0 g1,
    attempt 8 g0 = Some (a, g1) /\
    "COMMON" = a_tier_name a /\
    (("ASH-WAVE-26" = a_code a /\ PyStr.mem "ASH-WAVE-26" (existing_codes Demo.s_bob) = false) \/
     ("ASH-WAVE-26" = fallback_code a 1761825626 /\
      PyStr.mem (a_code a) (existing_codes Demo.s_bob) = true)).
Proof.
  refine (generated_code_fresh 8 1761825626 Demo.s_bob (Demo.constant (2 ^ 52))
            "ASH-WAVE-26" "COMMON" _ _).
  vm_compute. reflexivity.
Defined.

(** ** Letter case *)

Section LetterCase.





End LetterCase.

(** ** A service without its spreadsheet *)



(** ** Who was referred, and by whom *)

Section ReferredAddresses.

Context `{AddressLib}.



Lemma find_app_some : forall (A : Type) (p : A -> bool) (l l' : list A) (x : A),
  find p l = Some x -> find p (l ++ l') = Some x.
Proof.
  intros A p l l' x. induction l as [| y l IH]; simpl.
  - discriminate.
  - destruct (p y); [intros E; exact E | exact IH].
Qed.

(** A call of [use_referral_code] that succeeds, spelled out. *)
Lemma use_ok : forall timestamp s request data s',
  use_referral_code timestamp s request = (Ok data, s') ->
  exists owner referrer,
    enabled s = true /\
    valid (_validate_address (req_referred_address request)) = true /\
    get_address_by_code s (req_referral_code request) = Some owner /\
    is_valid (get_code_benefits s (req_referral_code request)) = true /\
    (if String.eqb owner SPECIAL_CODE then Some PLACEHOLDER_ADDRESS
     else if valid (_validate_address owner)
          then Some (normalized (_validate_address owner)) else None) = Some referrer /\
    valid (_validate_address (d_referred_address data)) = true /\
    existsb (referred_is
               (PyStr.lower (normalized (_validate_address (d_referred_address data)))))
      (referrals_sheet s) = false /\
    d_referrer_address data = owner /\
    d_referred_address data = normalized (_validate_address (req_referred_address request)) /\
    d_referrer_bonus data
    = (if negb (String.eqb referrer PLACEHOLDER_ADDRESS) then SIGNUP_BONUS else 0) /\
    d_referee_bonus data
    = REFEREE_BONUS + bonus_points (get_code_benefits s (req_referral_code request)) /\
    d_is_special data = is_special (get_code_benefits s (req_referral_code request)) /\
    s' = append_referral s
           {| Referrals.referrer_address := referrer;
              Referrals.referral_code := req_referral_code request;
              Referrals.referred_address :=
                normalized (_validate_address (d_referred_address data));
              Referrals.swap_amount_usdc := req_swap_amount_usdc request;
              Referrals.swap_timestamp := timestamp;
              Referrals.signup_bonus_paid := "true";
              Referrals.referee_bonus_paid := "true";
              Referrals.created_at := timestamp |}.
Proof.
  intros timestamp s [code referred amount] data s'.
  unfold use_referral_code. cbn [req_referral_code req_referred_address req_swap_amount_usdc].
  destruct (valid (_validate_address referred)) eqn:Hvalid; cbn [negb]; [| discriminate].
  destruct (get_address_by_code s code) as [owner |] eqn:Howner; [| discriminate].
  destruct (negb (PyStr.truthy owner)); [discriminate |].
  destruct (check_if_referred s _); [discriminate |].
  destruct (String.eqb (PyStr.lower owner) _); [discriminate |].
  unfold record_referral.
  rewrite (get_address_by_code_enabled _ _ _ Howner). cbn [negb].
  destruct (is_valid (get_code_benefits s code)) eqn:Hcode; cbn [negb]; [| discriminate].
  destruct (if String.eqb owner SPECIAL_CODE then Some PLACEHOLDER_ADDRESS
            else if valid (_validate_address owner)
                 then Some (normalized (_validate_address owner)) else None)
    as [referrer |] eqn:Hreferrer; [| discriminate].
  destruct (valid (_validate_address (normalized (_validate_address referred)))) eqn:Hagain;
    cbn [negb]; [| discriminate].
  destruct (existsb _ (referrals_sheet s)) eqn:Hdup; [discriminate |].
  destruct (PyFloat.lt_int amount (min_swap (get_code_benefits s code))); [discriminate |].
  intros E. inversion E; subst. clear E.
  cbn [d_referrer_address d_referred_address d_referrer_bonus d_referee_bonus d_is_special
       referrer_bonus referee_bonus rs_is_special].
  exists owner, referrer. repeat (split; [first [reflexivity | assumption] |]). reflexivity.
Qed.

(** The benefits of a code that resolves are special exactly when it
    resolves to the marker of the special codes. *)
Lemma is_special_marker : forall s code owner,
  get_address_by_code s code = Some owner ->
  is_valid (get_code_benefits s code) = true ->
  is_special (get_code_benefits s code) = String.eqb owner SPECIAL_CODE.
Proof.
  intros s code owner Howner. unfold get_code_benefits. rewrite Howner.
  unfold get_address_by_code in Howner.
  destruct (negb (enabled s)); [discriminate |].
  destruct (special_code (PyStr.upper code)) as [sc |].
  - inversion Howner. reflexivity.
  - destruct (PyStr.truthy owner && negb (String.eqb owner SPECIAL_CODE))%bool eqn:Hok.
    + apply andb_true_iff in Hok. destruct Hok as [_ Hok].
      apply negb_true_iff in Hok. rewrite Hok. reflexivity.
    + discriminate.
Qed.

End ReferredAddresses.




(** X13.  What a successful [POST /use] credits.  The referral count of the
    stored referrer, compared up to case, grows by one and no other count
    changes, so that no address loses rolls.  A special code stores the
    placeholder address as referrer, answers the marker SPECIAL_CODE as
    [referrer_address] and awards the referrer nothing; any other code stores
    the checksummed owner and awards 1000 points (nothing when the owner is
    the placeholder address itself).  The referee gets 1000 points plus the
    bonus of the code. *)
Theorem use_credits `{AddressLib} : forall timestamp s request data s',
  use_referral_code timestamp s request = (Ok data, s') ->
  exists event,
    referrals_sheet s' = referrals_sheet s ++ [event] /\
    (forall address,
       _count_successful_referrals s' address
       = _count_successful_referrals s address
         + (if String.eqb (PyStr.lower (Referrals.referrer_address event))
                 (PyStr.lower address) then 1 else 0)) /\
    (forall address, max_rolls s address <= max_rolls s' address) /\
    (d_is_special data = true ->
     d_referrer_address data = SPECIAL_CODE /\
     Referrals.referrer_address event = PLACEHOLDER_ADDRESS /\
     d_referrer_bonus data = 0) /\
    (d_is_special data = false ->
     Referrals.referrer_address event
     = normalized (_validate_address (d_referrer_address data)) /\
     d_referrer_bonus data
     = (if String.eqb (Referrals.referrer_address event) PLACEHOLDER_ADDRESS
        then 0 else SIGNUP_BONUS) /\
     d_referee_bonus data = REFEREE_BONUS) /\
    d_referee_bonus data
    = REFEREE_BONUS + bonus_points (get_code_benefits s (req_referral_code request)).
Proof.
  intros timestamp s request data s' E. apply use_ok in E.
  destruct E as [owner [referrer [Hen [_ [Howner [Hcode [Hreferrer [_ [_ [Hdata
                 [_ [Hbonus [Hreferee [Hspecial Hs']]]]]]]]]]]]]].
  pose proof (is_special_marker s _ owner Howner Hcode) as Hmarker.
  eexists. subst s'. cbn [referrals_sheet append_referral Referrals.referrer_address].
  split; [reflexivity |].
  assert (Hcount : forall address,
            _count_successful_referrals
              (append_referral s
                 {| Referrals.referrer_address := referrer;
                    Referrals.referral_code := req_referral_code request;
                    Referrals.referred_address :=
                      normalized (_validate_address (d_referred_address data));
                    Referrals.swap_amount_usdc := req_swap_amount_usdc request;
                    Referrals.swap_timestamp := timestamp;
                    Referrals.signup_bonus_paid := "true";
                    Referrals.referee_bonus_paid := "true";
                    Referrals.created_at := timestamp |}) address
            = _count_successful_referrals s address
              + (if String.eqb (PyStr.lower referrer) (PyStr.lower address) then 1 else 0)).
  { intros address. unfold _count_successful_referrals.
    cbn [referrals_sheet append_referral]. rewrite filter_app, length_app.
    cbn [filter]. unfold referred_by at 2. cbn [Referrals.referrer_address].
    destruct (String.eqb (PyStr.lower referrer) (PyStr.lower address)); simpl; lia. }
  split; [exact Hcount |].
  split.
  { intros address. unfold max_rolls. apply max_rolls_of_mono. rewrite Hcount.
    destruct (String.eqb (PyStr.lower referrer) (PyStr.lower address)); lia. }
  rewrite Hspecial, Hmarker, Hdata.
  split.
  { intros Hsp. rewrite Hsp in Hreferrer. inversion Hreferrer; subst referrer.
    apply String.eqb_eq in Hsp. split; [exact Hsp |]. split; [reflexivity |].
    rewrite Hbonus. reflexivity. }
  split; [| exact Hreferee].
  intros Hsp. rewrite Hsp in Hreferrer.
  destruct (valid (_validate_address owner)); [| discriminate].
  inversion Hreferrer; subst referrer. split; [reflexivity |].
  split.
  - rewrite Hbonus. cbn [Referrals.referrer_address].
    destruct (String.eqb (normalized (_validate_address owner)) PLACEHOLDER_ADDRESS);
      reflexivity.
  - rewrite Hreferee. unfold get_code_benefits.
    assert (Hnot : is_special (get_code_benefits s (req_referral_code request)) = false).
    { rewrite Hmarker. exact Hsp. }
    unfold get_code_benefits in Hnot.
    destruct (special_code (PyStr.upper (req_referral_code request))); [discriminate |].
    rewrite Howner.
    destruct (PyStr.truthy owner && negb (String.eqb owner SPECIAL_CODE))%bool; reflexivity.
Qed.

(** The swap through PUNK on [Demo.s_referred]: the placeholder gets the
    event, the referee 1500 points. *)
Lemma use_credits_witness :
  exists data,
    @use_referral_code Demo.lib Demo.NOW Demo.s_referred
      {| req_referral_code := "PUNK"; req_referred_address := Demo.TOKEN_PROGRAM;
         req_swap_amount_usdc := 5%float |} = (Ok data, Demo.s_two) /\
    d_referee_bonus data = 1500 /\
    d_referrer_bonus data = 0 /\
    _count_successful_referrals Demo.s_two PLACEHOLDER_ADDRESS = 1 /\
    _count_successful_referrals Demo.s_two Demo.BOB = 1.
Proof.
  eexists. split; [reflexivity |].
  destruct (@use_credits Demo.lib Demo.NOW Demo.s_referred
              {| req_referral_code := "PUNK"; req_referred_address := Demo.TOKEN_PROGRAM;
                 req_swap_amount_usdc := 5%float |} _ Demo.s_two eq_refl)
    as [event [_ [_ [_ [Hspecial [_ Hreferee]]]]]].
  split; [exact Hreferee |]. split; [exact (proj2 (proj2 (Hspecial eq_refl))) |].
  split; reflexivity.
Defined.

(** ** Codes up to letter case *)


(** ** What never changes *)

Section Stability.

Context `{AddressLib}.

Lemma step_code_owner : forall s s' code owner,
  step s s' ->
  get_address_by_code s code = Some owner -> get_address_by_code s' code = Some owner.
Proof.
  intros s s' code owner Hstep. unfold get_address_by_code.
  rewrite (step_enabled _ _ Hstep).
  destruct (negb (enabled s)); [discriminate |].
  destruct (special_code (PyStr.upper code)); [intros E; exact E |].
  assert (Hfind : forall row,
            find (code_matches code) (codes_sheet s) = Some row ->
            option_map Codes.address (find (code_matches code) (codes_sheet s'))
            = Some (Codes.address row)).
  { intros row Hrow. step_effect Hstep E.
    - destruct E as [E | E]; subst; [rewrite Hrow; reflexivity |].
      cbn [codes_sheet append_code]. rewrite (find_app_some _ _ _ _ _ Hrow). reflexivity.
    - destruct E as [E | [first [rest [c [r [_ [_ E]]]]]]]; subst; [rewrite Hrow; reflexivity |].
      cbn [codes_sheet append_code with_codes].
      pose proof (deactivate_find_address code (first :: rest) (codes_sheet s)) as Hsame.
      rewrite Hrow in Hsame. cbn [option_map] in Hsame.
      destruct (find (code_matches code) (deactivate (first :: rest) (codes_sheet s)))
        as [row' |] eqn:Hrow'; [| discriminate].
      rewrite (find_app_some _ _ _ _ _ Hrow'). exact Hsame.
    - destruct E as [E | [row' [E _]]]; subst; cbn [codes_sheet append_referral];
        rewrite Hrow; reflexivity.
    - destruct E as [E | E]; subst; cbn [codes_sheet append_balances];
        rewrite Hrow; reflexivity. }
  destruct (find (code_matches code) (codes_sheet s)) as [row |]; [| discriminate].
  intros E. inversion E; subst. specialize (Hfind row eq_refl).
  destruct (find (code_matches code) (codes_sheet s')) as [row' |]; [| discriminate].
  cbn [option_map] in Hfind. rewrite <- Hfind. reflexivity.
Qed.

Lemma step_referrer : forall s s' address found,
  step s s' ->
  check_if_referred s address = Some found -> check_if_referred s' address = Some found.
Proof.
  intros s s' address found Hstep. unfold check_if_referred.
  rewrite (step_enabled _ _ Hstep).
  destruct (negb (enabled s)); [discriminate |].
  destruct (step_referrals _ _ Hstep) as [Hsame | [row [Happ _]]].
  - rewrite Hsame. intros E; exact E.
  - rewrite Happ.
    destruct (find (referred_is (PyStr.lower address)) (referrals_sheet s)) as [event |] eqn:Hfind;
      [| discriminate].
    rewrite (find_app_some _ _ _ _ _ Hfind). intros E; exact E.
Qed.

Lemma step_count : forall s s' address,
  step s s' -> _count_successful_referrals s address <= _count_successful_referrals s' address.
Proof.
  intros s s' address Hstep. unfold _count_successful_referrals.
  destruct (step_referrals _ _ Hstep) as [Hsame | [row [Happ _]]].
  - rewrite Hsame. lia.
  - rewrite Happ, filter_app, length_app. lia.
Qed.

End Stability.

Lemma regenerated_later : forall g s address,
  @later Demo.lib s (Demo.regenerated g s address).
Proof.
  intros g s address. unfold Demo.regenerated.
  destruct (@regenerate_referral_code 8 0 Demo.NOW g s address) as [[[res s'] g'] |] eqn:E.
  - eapply later_step; [apply later_now |]. eapply step_regenerate. exact E.
  - apply later_now.
Qed.

(** X15.  Nothing the service has answered about a code or a referral is
    taken back by later calls: a code that resolves to an owner resolves to
    that same owner ever after (regeneration switches rows off but keeps
    them, and new rows are appended behind the old ones); an address found
    referred stays referred, by the same referrer and code; and the referral
    count of an address, and with it its [max_rolls], never decreases. *)
Theorem answers_are_kept `{AddressLib} : forall s s',
  later s s' ->
  (forall code owner,
     get_address_by_code s code = Some owner -> get_address_by_code s' code = Some owner) /\
  (forall address found,
     check_if_referred s address = Some found -> check_if_referred s' address = Some found) /\
  (forall address,
     _count_successful_referrals s address <= _count_successful_referrals s' address /\
     max_rolls s address <= max_rolls s' address).
Proof.
  intros s s' Hlater. induction Hlater as [| s1 s2 _ [IHcode [IHreferred IHcount]] Hstep].
  - split; [intros code owner E; exact E |]. split; [intros address found E; exact E |].
    intros address. split; lia.
  - split.
    { intros code owner E. exact (step_code_owner _ _ _ _ Hstep (IHcode _ _ E)). }
    split.
    { intros address found E. exact (step_referrer _ _ _ _ Hstep (IHreferred _ _ E)). }
    intros address. destruct (IHcount address) as [Hcount Hmax].
    pose proof (step_count _ _ address Hstep) as Hstep_count.
    split; [lia |].
    apply Z.le_trans with (m := max_rolls s1 address); [exact Hmax |].
    unfold max_rolls. apply max_rolls_of_mono. exact Hstep_count.
Qed.

(** Bob's first code still resolves to him after he rolled twice. *)
Lemma answers_are_kept_witness :
  get_address_by_code Demo.s_rolled "ash-wave-26" = Some (PyStr.lower Demo.BOB).
Proof.
  assert (Hlater : @later Demo.lib Demo.s_bob Demo.s_rolled).
  { unfold Demo.s_rolled.
    pose proof (regenerated_later (Demo.constant (2 ^ 53 - 1)) Demo.s_bob Demo.BOB) as H1.
    pose proof (regenerated_later (Demo.constant 12345678901234567)
                  (Demo.regenerated (Demo.constant (2 ^ 53 - 1)) Demo.s_bob Demo.BOB) Demo.BOB)
      as H2.
    clear - H1 H2. induction H2 as [| s1 s2 _ IH Hstep].
    - exact H1.
    - eapply later_step; [exact IH | exact Hstep]. }
  apply (proj1 (@answers_are_kept Demo.lib Demo.s_bob Demo.s_rolled Hlater)).
  reflexivity.
Defined.
